(** * git-fleximod: the submodule checkout engine

    A shallow embedding of [git-fleximod.py].  The script drives an external
    version-control tool over a file tree; both are state, so every function
    of the script is a computation over a [World] (file tree, current
    directory, log of observable events) that either returns or raises, and
    keeps the state it reached when it raises, as a Python exception does.

    The classes [GitInterface] and [GitModules] and the module [utils] are
    imported by the script and are not part of it.  The version-control
    tool and the reading of a manifest are the fields of the class
    [External] below, a manifest is any value of the record [GitModules],
    and the theorems hold for all of them; the two helpers of [utils] are
    taken from what the specification says of them. *)

From Stdlib Require Import String Ascii List Bool Arith Lia ZArith.
Import ListNotations.
Open Scope list_scope.
Open Scope string_scope.

(** ** Python values *)

Module Py.

(** The values the manifest reader hands out: a string, or [None] when the
    option is not there. *)
Inductive pyval : Type :=
| PNone
| PStr (s : string).

(** Truth value of [if v:] *)
Definition truthy (v : pyval) : bool :=
  match v with
  | PNone => false
  | PStr s => negb (s =? "")
  end.

(** [a == b] on these values *)
Definition eqv (a b : pyval) : bool :=
  match a, b with
  | PNone, PNone => true
  | PStr x, PStr y => x =? y
  | _, _ => false
  end.

(** [a in b] for two strings: [a] occurs in [b] as a substring. *)
Fixpoint str_in (a b : string) : bool :=
  String.prefix a b ||
  match b with
  | EmptyString => false
  | String _ b' => str_in a b'
  end.

(** The strings that begin [b], and those that occur in it. *)
Fixpoint prefixes (b : string) : list string :=
  match b with
  | EmptyString => [EmptyString]
  | String c b' => EmptyString :: map (String c) (prefixes b')
  end.

Fixpoint substrings (b : string) : list string :=
  (prefixes b ++
   match b with
   | EmptyString => []
   | String _ b' => substrings b'
   end)%list.

(** [x in t] for a tuple of strings [t]: some element equals [x]. *)
Fixpoint tuple_in (x : pyval) (t : list string) : bool :=
  match t with
  | [] => false
  | y :: t' => eqv x (PStr y) || tuple_in x t'
  end.

(** Whitespace of [str.rstrip()].  A string is the sequence of its
    characters, each a code point below 256; of these, [str.isspace] holds
    of 9 to 13, 28 to 32, 133 (next line) and 160 (no-break space). *)
Definition is_space (c : ascii) : bool :=
  let n := nat_of_ascii c in
  ((9 <=? n)%nat && (n <=? 13)%nat) || ((28 <=? n)%nat && (n <=? 32)%nat) ||
  (n =? 133)%nat || (n =? 160)%nat.

Fixpoint rstrip (s : string) : string :=
  match s with
  | EmptyString => EmptyString
  | String c s' =>
      match rstrip s' with
      | EmptyString => if is_space c then EmptyString else String c EmptyString
      | r => String c r
      end
  end.

(** [str(v)] as an f-string renders it *)
Definition fmt (v : pyval) : string :=
  match v with
  | PNone => "None"
  | PStr s => s
  end.

End Py.
Import Py.

(** ** Paths: [os.path] on POSIX *)

Module OsPath.

Definition sep : ascii := "/"%char.

Definition startswith_sep (s : string) : bool :=
  match s with
  | String c _ => Ascii.eqb c sep
  | EmptyString => false
  end.

Fixpoint endswith_sep (s : string) : bool :=
  match s with
  | EmptyString => false
  | String c EmptyString => Ascii.eqb c sep
  | String _ s' => endswith_sep s'
  end.

(** [os.path.join(a, b)] *)
Definition join (a b : string) : string :=
  if startswith_sep b then b
  else if (a =? "") || endswith_sep a then a ++ b
  else a ++ String sep b.

(** [s.split("/")] *)
Fixpoint split (s : string) : list string :=
  match s with
  | EmptyString => [EmptyString]
  | String c s' =>
      if Ascii.eqb c sep then EmptyString :: split s'
      else match split s' with
           | [] => [String c EmptyString]
           | h :: t => String c h :: t
           end
  end.

(** One step of [os.path.normpath] on an absolute path; the components kept
    so far are held innermost first. *)
Definition norm_step (stack : list string) (comp : string) : list string :=
  if (comp =? "") || (comp =? ".") then stack
  else if comp =? ".." then tl stack
  else comp :: stack.

Definition norm_from (stack : list string) (s : string) : list string :=
  fold_left norm_step (split s) stack.

(** [os.path.abspath(p)] in directory [cwd], as the list of its components
    from the root down.  The file tree is keyed by these lists. *)
Definition resolve (cwd p : string) : list string :=
  rev (norm_from [] (join cwd p)).

(** [os.path.basename(p)] *)
Definition basename (p : string) : string := last (split p) EmptyString.

Fixpoint drop_common (a b : list string) : list string * list string :=
  match a, b with
  | x :: a', y :: b' => if x =? y then drop_common a' b' else (a, b)
  | _, _ => (a, b)
  end.

Fixpoint join_all (l : list string) : string :=
  match l with
  | [] => EmptyString
  | [x] => x
  | x :: l' => x ++ String sep (join_all l')
  end.

(** [os.path.relpath(p, start)] in directory [cwd] *)
Definition relpath (cwd p start : string) : string :=
  let '(up, down) := drop_common (resolve cwd start) (resolve cwd p) in
  match (map (fun _ => "..") up ++ down)%list with
  | [] => "."
  | rel => join_all rel
  end.

(** A plain component: one name, neither empty nor [.] nor [..]. *)
Definition plain (b : string) : Prop :=
  split b = [b] /\ (b =? "") = false /\ (b =? ".") = false /\ (b =? "..") = false.

(** The absolute path string of a list of components. *)
Definition render (k : list string) : string :=
  String sep (join_all k).

End OsPath.

(** ** The file tree *)

Module FileSys.

Inductive node : Type :=
| Dir
| File (content : string).

Definition key := list string.

(** A file tree gives what is at each absolute path; there are no links. *)
Definition FS := key -> option node.

Definition exists_ (t : FS) (k : key) : bool :=
  match t k with Some _ => true | None => false end.

Definition isdir (t : FS) (k : key) : bool :=
  match t k with Some Dir => true | _ => false end.

Definition isfile (t : FS) (k : key) : bool :=
  match t k with Some (File _) => true | _ => false end.

Fixpoint key_eqb (a b : key) : bool :=
  match a, b with
  | [], [] => true
  | x :: a', y :: b' => (x =? y) && key_eqb a' b'
  | _, _ => false
  end.

(** [strip p k] is what remains of [k] below [p], when [k] is [p] or lies
    below it. *)
Fixpoint strip (p k : key) : option key :=
  match p, k with
  | [], _ => Some k
  | x :: p', y :: k' => if x =? y then strip p' k' else None
  | _ :: _, [] => None
  end.

Definition below (p k : key) : bool :=
  match strip p k with Some _ => true | None => false end.

Definition parent (k : key) : key := removelast k.

(** Some directory on the way down to [k] (or [k] itself) is a file. *)
Fixpoint blocked (t : FS) (above rest : key) : bool :=
  isfile t above ||
  match rest with
  | [] => false
  | x :: rest' => blocked t (above ++ [x])%list rest'
  end.

(** The tree after every missing directory down to [k] is made. *)
Definition with_dirs (t : FS) (k : key) : FS :=
  fun q => if below q k then match t q with None => Some Dir | n => n end
           else t q.

(** The tree after the subtree at [src] is taken to [dst]. *)
Definition renamed (t : FS) (src dst : key) : FS :=
  fun q => match strip dst q with
           | Some rest => t (src ++ rest)%list
           | None => if below src q then None else t q
           end.

Definition put (t : FS) (k : key) (n : node) : FS :=
  fun q => if key_eqb q k then Some n else t q.

End FileSys.
Import FileSys.

(** ** Worlds, exceptions and the computations of the script *)

Inductive exn : Type :=
| VcsOperationFailed (detail : string)
| ManifestError (detail : string)
| FileNotFoundError
| FileExistsError
| NotADirectoryError
| IsADirectoryError
| SameFileError
| ShutilError
| TypeError
| AttributeError
| FatalError (msg : string)
| SystemExit (code : nat)
| RecursionError.

(** What a run shows to an operator, asks of the version-control tool and
    of the manifest reader, and writes to the file tree itself. *)
Inductive event : Type :=
| Print (line : string)
| LogWarning (msg : string)
| NewGitInterface (repo_path : string)
| GitOperation (repo_path : string) (args : list pyval)
| ConfigSetValue (repo_path section option value : string)
| NewGitModules (confpath : string)
| Makedirs (k : key)
| Moved (src dst : key)
| Copied (src dst : key)
| Wrote (k : key) (content : string).

Record World : Type := mkWorld {
  fs : FS;
  cwd : string;
  events : list event
}.

Definition set_fs (t : FS) (w : World) : World :=
  mkWorld t (cwd w) (events w).

Definition set_cwd (d : string) (w : World) : World :=
  mkWorld (fs w) d (events w).

Definition emit (e : event) (w : World) : World :=
  mkWorld (fs w) (cwd w) (events w ++ [e])%list.

Inductive result (A : Type) : Type :=
| Ok (a : A) (w : World)
| Raise (e : exn) (w : World).
Arguments Ok {A} a w.
Arguments Raise {A} e w.

Definition M (A : Type) : Type := World -> result A.

Definition ret {A} (a : A) : M A := fun w => Ok a w.

Definition raise {A} (e : exn) : M A := fun w => Raise e w.

Definition bind {A B} (c : M A) (k : A -> M B) : M B :=
  fun w => match c w with
           | Ok a w' => k a w'
           | Raise e w' => Raise e w'
           end.

Declare Scope py_scope.
Delimit Scope py_scope with py.
Notation "x <- c ;; k" := (bind c (fun x => k))
  (at level 61, c at next level, right associativity) : py_scope.
Notation "c ;;; k" := (bind c (fun _ => k))
  (at level 61, right associativity) : py_scope.
Open Scope py_scope.

(** [for x in l: body x]; a [continue] is a body that returns. *)
Fixpoint for_each {A} (l : list A) (body : A -> M unit) : M unit :=
  match l with
  | [] => ret tt
  | x :: l' => body x ;;; for_each l' body
  end.

Definition print (line : string) : M unit :=
  fun w => Ok tt (emit (Print line) w).

Definition logging_warning (msg : string) : M unit :=
  fun w => Ok tt (emit (LogWarning msg) w).

Definition returned {A} (r : exn + A) : M A :=
  match r with
  | inr a => ret a
  | inl e => raise e
  end.

(** A value used where Python wants a string. *)
Definition as_str (v : pyval) : M string :=
  match v with
  | PStr s => ret s
  | PNone => raise TypeError
  end.

(** *** [os], [os.path] and [shutil] on the file tree *)

(** A path names the node of the tree at [OsPath.resolve], its normalized
    absolute form: the components are followed as written, there being no
    links, and [..] steps back without a look at the tree.  The script
    hands these functions the path of a component, alone or joined with a
    name; the empty path, which the system refuses, is read here as the
    current directory. *)

Definition os_getcwd : M string := fun w => Ok (cwd w) w.

Definition os_path_isdir (p : string) : M bool :=
  fun w => Ok (isdir (fs w) (OsPath.resolve (cwd w) p)) w.

Definition os_path_isfile (p : string) : M bool :=
  fun w => Ok (isfile (fs w) (OsPath.resolve (cwd w) p)) w.

Definition os_path_exists (p : string) : M bool :=
  fun w => Ok (exists_ (fs w) (OsPath.resolve (cwd w) p)) w.

Definition os_path_relpath (p start : string) : M string :=
  fun w => Ok (OsPath.relpath (cwd w) p start) w.

(** [os.makedirs(p)] *)
Definition os_makedirs (p : string) : M unit :=
  fun w =>
    let k := OsPath.resolve (cwd w) p in
    if exists_ (fs w) k then Raise FileExistsError w
    else if blocked (fs w) [] k then Raise NotADirectoryError w
    else Ok tt (emit (Makedirs k) (set_fs (with_dirs (fs w) k) w)).

Fixpoint rstrip_sep (s : string) : string :=
  match s with
  | EmptyString => EmptyString
  | String c s' =>
      match rstrip_sep s' with
      | EmptyString =>
          if Ascii.eqb c OsPath.sep then EmptyString else String c EmptyString
      | r => String c r
      end
  end.

(** [shutil.move(src, dst)], one device and no links: into [dst] when that is
    a directory, a rename where the system allows one, and otherwise the
    copy of the tree followed by its removal. *)
Definition shutil_move (src dst : string) : M unit :=
  fun w =>
    let t := fs w in
    let s := OsPath.resolve (cwd w) src in
    let d := OsPath.resolve (cwd w) dst in
    if isdir t d && key_eqb s d then Ok tt (emit (Moved s d) w)
    else
      let real_dst :=
        if isdir t d
        then OsPath.resolve (cwd w)
               (OsPath.join dst (OsPath.basename (rstrip_sep src)))
        else d in
      if isdir t d && exists_ t real_dst then Raise ShutilError w
      else
        match t s with
        | None => Raise FileNotFoundError w
        | Some Dir =>
            if below s real_dst then Raise ShutilError w
            else if exists_ t real_dst then Raise FileExistsError w
            else if blocked t [] (parent real_dst) then Raise NotADirectoryError w
            else Ok tt (emit (Moved s real_dst)
                         (set_fs (renamed (with_dirs t (parent real_dst)) s real_dst) w))
        | Some (File _) =>
            if isdir t (parent real_dst)
            then Ok tt (emit (Moved s real_dst) (set_fs (renamed t s real_dst) w))
            else Raise FileNotFoundError w
        end.

(** [shutil.copy(src, dst)] *)
Definition shutil_copy (src dst : string) : M unit :=
  fun w =>
    let t := fs w in
    let s := OsPath.resolve (cwd w) src in
    let d0 := OsPath.resolve (cwd w) dst in
    let d :=
      if isdir t d0
      then OsPath.resolve (cwd w) (OsPath.join dst (OsPath.basename src))
      else d0 in
    match t s with
    | None => Raise FileNotFoundError w
    | Some n =>
        if key_eqb s d then Raise SameFileError w
        else match n with
             | Dir => Raise IsADirectoryError w
             | File c =>
                 if isdir t d then Raise IsADirectoryError w
                 else if isdir t (parent d)
                 then Ok tt (emit (Copied s d) (set_fs (put t d (File c)) w))
                 else Raise FileNotFoundError w
             end
    end.

(** [with open(p, "w") as f: f.write(content)] *)
Definition write_file (p content : string) : M unit :=
  fun w =>
    let k := OsPath.resolve (cwd w) p in
    if isdir (fs w) k then Raise IsADirectoryError w
    else if isdir (fs w) (parent k)
    then Ok tt (emit (Wrote k content) (set_fs (put (fs w) k (File content)) w))
    else Raise FileNotFoundError w.

(** ** The collaborators of the script *)

(** What the script uses of a [GitModules] object: the names of the sections
    it keeps, the lookup [get(name, option)], and the method that line 227
    calls for the declared tag, which the script spells [git]; the class
    being outside the script, that call may return or raise. *)
Record GitModules : Type := mkGitModules {
  sections : list string;
  get : string -> string -> pyval;
  git : string -> string -> exn + pyval
}.

(** The version-control tool and the manifest reader.  Each operation of the
    tool sees the directory the process is in, the repository it is bound
    to and the file tree, changes the tree as it likes, and returns its
    captured output or the exception it raises. *)
Class External : Type := {
  GitInterface_init : string -> string -> FS -> FS * (exn + unit);
  GitInterface_git_operation :
    string -> string -> list pyval -> FS -> FS * (exn + string);
  GitInterface_config_set_value :
    string -> string -> string -> string -> string -> FS -> FS * (exn + unit);
  GitModules_init :
    string -> string -> pyval -> option (list string) -> option (list string) ->
    FS -> exn + GitModules;
  version_info : exn + string
}.

(** The parsed command line, as [argparse] leaves it in [options]. *)
Module Options.
Record t : Type := mk {
  components : list string;
  path : string;
  gitmodules : pyval;
  exclude : option (list string);
  optional : bool;
  status : bool;
  update : bool;
  verbose : nat;
  version : bool
}.
End Options.

Section Script.

Context {ext : External}.

Definition lift_tool {A} (e : event) (f : string -> FS -> FS * (exn + A)) : M A :=
  fun w =>
    let w1 := emit e w in
    match f (cwd w) (fs w) with
    | (t, inr a) => Ok a (set_fs t w1)
    | (t, inl x) => Raise x (set_fs t w1)
    end.

(** [GitInterface(repo_path)]; the object is known by the path it is bound to. *)
Definition GitInterface (repo_path : string) : M string :=
  lift_tool (NewGitInterface repo_path)
    (fun c t => GitInterface_init c repo_path t) ;;;
  ret repo_path.

(** [git.git_operation(operation, ...)] *)
Definition git_operation (git_ : string) (args : list pyval) : M string :=
  lift_tool (GitOperation git_ args)
    (fun c t => GitInterface_git_operation c git_ args t).

(** [git.config_set_value(section, option, value)] *)
Definition config_set_value (git_ section option value : string) : M unit :=
  lift_tool (ConfigSetValue git_ section option value)
    (fun c t => GitInterface_config_set_value c git_ section option value t).

(** [GitModules(confpath, conffile, includelist, excludelist)] *)
Definition GitModules_new (confpath : string) (conffile : pyval)
    (includelist excludelist : option (list string)) : M GitModules :=
  lift_tool (NewGitModules confpath)
    (fun c t => (t, GitModules_init c confpath conffile includelist excludelist t)).

(** Modelled from the spec: [utils.fatal_error] is not among the sources; a
    fatal condition ends the process with a message naming the component. *)
Definition fatal_error {A} (msg : string) : M A := raise (FatalError msg).

(** Back in the directory [previous], however the body ended. *)
Definition restore_cwd {A} (previous : string) (r : result A) : result A :=
  match r with
  | Ok a w' => Ok a (set_cwd previous w')
  | Raise e w' => Raise e (set_cwd previous w')
  end.

(** Modelled from the spec: [utils.pushd] is not among the sources; it
    changes the current directory of the process for the body and restores
    it afterwards, on every way out. *)
Definition pushd {A} (new_dir : string) (body : M A) : M A :=
  fun w =>
    let previous := cwd w in
    let k := OsPath.resolve previous new_dir in
    match fs w k with
    | None => Raise FileNotFoundError w
    | Some (File _) => Raise NotADirectoryError w
    | Some Dir => restore_cwd previous (body (set_cwd (OsPath.render k) w))
    end.

(** ** The script *)

(** The argument lists that the script hands to [git_operation]. *)
Definition rev_parse_args : list pyval :=
  [PStr "rev-parse"; PStr "--show-toplevel"].

Definition remote_add_args (remote : string) (url : pyval) : list pyval :=
  [PStr "remote"; PStr "add"; PStr remote; url].

Definition fetch_args : list pyval :=
  [PStr "fetch"; PStr "--depth=1"; PStr "origin"; PStr "--tags"].

Definition checkout_args (tag : pyval) : list pyval := [PStr "checkout"; tag].

Definition update_init_args (path : pyval) : list pyval :=
  [PStr "submodule"; PStr "update"; PStr "--init"; path].

Definition describe_args : list pyval :=
  [PStr "describe"; PStr "--tags"; PStr "--always"].

Definition ls_remote_args : list pyval := [PStr "ls-remote"; PStr "--get-url"].

(** The right-hand side of an [in]: a tuple of strings, or one string. *)
Inductive container : Type :=
| Tuple (t : list string)
| Str (s : string).

(** [x in c]: membership in a tuple, occurrence in a string; a string on the
    right takes only a string on the left. *)
Definition py_in (x : pyval) (c : container) : M bool :=
  match c, x with
  | Tuple t, _ => ret (tuple_in x t)
  | Str s, PStr a => ret (str_in a s)
  | Str _, PNone => raise TypeError
  end.

(** ["..." in v] for a value [v] of the manifest *)
Definition str_in_val (a : string) (v : pyval) : M bool :=
  match v with
  | PStr s => ret (str_in a s)
  | PNone => raise TypeError
  end.

Definition arguments : Type :=
  string * pyval * container * list string * option (list string) * nat * string.

(** [commandline_arguments], from line 137 on. *)
Definition commandline_arguments (options : Options.t) : M arguments :=
  let esmrequired :=
    if Options.optional options
    then Tuple ["T:T"; "T:F"; "I:T"]
    else Tuple ["T:T"; "I:T"] in
  let action :=
    if Options.status options then "status"
    else if Options.update options then "update"
    else "install" in
  (if Options.version options
   then match version_info with
        | inl e => raise e
        | inr line => print line ;;; raise (SystemExit 0)
        end
   else ret tt) ;;;
  ret (Options.path options, Options.gitmodules options, esmrequired,
       Options.components options, Options.exclude options,
       Options.verbose options, action).

(** Lines 190 to 199 of [submodule_sparse_checkout]: the metadata directory
    that the tool made in the component goes to the store of the top-level
    repository, the sparse-checkout file is copied into it, and a pointer
    is left in the component.  [topgit] is the store and [gitsparse] the
    sparse-checkout file of the component in it. *)
Definition relocate_metadata
    (name p : string) (sparsefile : pyval) (topgit gitsparse : string) : M unit :=
  isd <- os_path_isdir topgit ;;
  (if negb isd then os_makedirs topgit else ret tt) ;;;
  let topgit := OsPath.join topgit name in
  shutil_move (OsPath.join p ".git") topgit ;;;
  sf <- as_str sparsefile ;;
  shutil_copy (OsPath.join p sf) gitsparse ;;;
  rel <- os_path_relpath topgit p ;;
  write_file (OsPath.join p ".git") ("gitdir: " ++ rel).

(** The warning of line 180 *)
Definition already_initialized (name : string) : string :=
  "submodule " ++ name ++ " is already initialized".

(** [submodule_sparse_checkout(name, url, path, sparsefile, tag)] *)
Definition submodule_sparse_checkout
    (name : string) (url path sparsefile tag : pyval) : M unit :=
  p <- as_str path ;;
  isd <- os_path_isdir p ;;
  (if negb isd then os_makedirs p else ret tt) ;;;
  here <- os_getcwd ;;
  git_ <- GitInterface here ;;
  out <- git_operation git_ rev_parse_args ;;
  let topdir := rstrip out in
  let topgit := OsPath.join (OsPath.join topdir ".git") "modules" in
  let gitsparse :=
    OsPath.join (OsPath.join (OsPath.join topgit name) "info") "sparse-checkout" in
  isf <- os_path_isfile gitsparse ;;
  if isf then
    logging_warning (already_initialized name)
  else
    sprepo_git <- GitInterface (OsPath.join topdir p) ;;
    config_set_value sprepo_git "core" "sparseCheckout" "true" ;;;
    git_operation sprepo_git (remote_add_args "origin" url) ;;;
    relocate_metadata name p sparsefile topgit gitsparse ;;;
    git_operation sprepo_git fetch_args ;;;
    git_operation sprepo_git (checkout_args tag) ;;;
    print ("Successfully checked out " ++ name).

(** Lines 212 to 216 of [submodule_checkout]: the manifest of the component
    just checked out, when it has one, is installed in turn; [install] is
    [submodules_install]. *)
Definition nested_install
    (install : GitModules -> string -> container -> M unit)
    (name repodir : string) : M unit :=
  nested <- os_path_exists (OsPath.join repodir ".gitmodules") ;;
  if nested then
    print ("Recursively checking out submodules of " ++ name ++ " " ++ repodir) ;;;
    gitmodules <- GitModules_new repodir (PStr ".gitmodules") None None ;;
    install gitmodules repodir (Str "I:T")
  else ret tt.

(** [submodule_checkout(root, name, path)] *)
Definition submodule_checkout
    (install : GitModules -> string -> container -> M unit)
    (root name : string) (path : pyval) : M unit :=
  git_ <- GitInterface root ;;
  p <- as_str path ;;
  let repodir := OsPath.join root p in
  git_operation git_ (update_init_args path) ;;;
  nested_install install name repodir ;;;
  marker <- os_path_exists (OsPath.join repodir ".git") ;;
  if marker then print ("Successfully checked out " ++ name)
  else fatal_error ("Failed to checkout " ++ name).

(** The three-way report of [submodules_status], lines 231 to 236. *)
Definition status_line (name : string) (tag : pyval) (atag : string) : string :=
  if truthy tag && negb (eqv (PStr atag) tag) then
    "Submodule " ++ name ++ " " ++ atag ++ " is out of sync with .gitmodules "
      ++ fmt tag
  else if truthy tag then
    "Submodule " ++ name ++ " at tag " ++ fmt tag
  else
    "Submodule " ++ name ++ " has no tag defined in .gitmodules".

(** The body of the loop of [submodules_status] *)
Definition status_of (gitmodules : GitModules) (root_dir name : string) : M unit :=
  let path := get gitmodules name "path" in
  tag <- returned (git gitmodules name "esmtag") ;;
  p <- as_str path ;;
  pushd p
    (git_ <- GitInterface (OsPath.join root_dir p) ;;
     out <- git_operation git_ describe_args ;;
     let atag := rstrip out in
     print (status_line name tag atag)).

(** [submodules_status(gitmodules, root_dir)] *)
Definition submodules_status (gitmodules : GitModules) (root_dir : string) : M unit :=
  for_each (sections gitmodules) (status_of gitmodules root_dir).

(** The body of the loop of [submodules_update] *)
Definition update_of (gitmodules : GitModules) (root_dir name : string) : M unit :=
  let esmtag := get gitmodules name "esmtag" in
  let path := get gitmodules name "path" in
  let url := get gitmodules name "url" in
  p <- as_str path ;;
  present <- os_path_exists (OsPath.join p ".git") ;;
  if present then
    pushd root_dir
      (git_ <- GitInterface root_dir ;;
       out <- git_operation git_ ls_remote_args ;;
       let upstream := rstrip out in
       if negb (eqv (PStr upstream) url) then
         git_operation git_ (remote_add_args "newbranch" url) ;;;
         git_operation git_ (checkout_args esmtag) ;;;
         ret tt
       else ret tt)
  else ret tt.

(** [submodules_update(gitmodules, root_dir)] *)
Definition submodules_update (gitmodules : GitModules) (root_dir : string) : M unit :=
  for_each (sections gitmodules) (update_of gitmodules root_dir).

(** The body of the loop of [submodules_install] *)
Definition install_of
    (install : GitModules -> string -> container -> M unit)
    (gitmodules : GitModules) (root_dir : string) (requiredlist : container)
    (name : string) : M unit :=
  let esmrequired := get gitmodules name "esmrequired" in
  let esmsparse := get gitmodules name "esmsparse" in
  let esmtag := get gitmodules name "esmtag" in
  let path := get gitmodules name "path" in
  let url := get gitmodules name "url" in
  accepted <- py_in esmrequired requiredlist ;;
  if negb accepted then
    optional <- str_in_val "T:F" esmrequired ;;
    if optional then print ("Skipping optional component " ++ name)
    else ret tt
  else if truthy esmsparse then
    submodule_sparse_checkout name url path esmsparse esmtag
  else
    submodule_checkout install root_dir name path.

(** [submodules_install(gitmodules, root_dir, requiredlist)].  The function
    and [submodule_checkout] call each other, one level of nested manifests
    per call; [depth] bounds the levels, as the interpreter's stack does. *)
Fixpoint submodules_install (depth : nat)
    (gitmodules : GitModules) (root_dir : string) (requiredlist : container)
    : M unit :=
  match depth with
  | O => raise RecursionError
  | S depth' =>
      for_each (sections gitmodules)
        (install_of (submodules_install depth') gitmodules root_dir requiredlist)
  end.

(** [_main_func()], on the parsed command line *)
Definition _main_func (depth : nat) (options : Options.t) : M unit :=
  args <- commandline_arguments options ;;
  let '(root_dir, file_name, esmrequired, includelist, excludelist, verbose, action) :=
    args in
  (if (0 <? verbose)%nat then print ("action is " ++ action) else ret tt) ;;;
  gitmodules <- GitModules_new root_dir file_name (Some includelist) excludelist ;;
  if action =? "update" then submodules_update gitmodules root_dir
  else if action =? "install" then
    submodules_install depth gitmodules root_dir esmrequired
  else if action =? "status" then submodules_status gitmodules root_dir
  else fatal_error ("unrecognized action request " ++ action).

End Script.

(** ** Reading a run *)

(** [grows w w' evs]: from [w] to [w'] the process stayed in its directory
    and logged [evs]. *)
Definition grows (w w' : World) (evs : list event) : Prop :=
  cwd w' = cwd w /\ events w' = (events w ++ evs)%list.

(** How a run ended, and what it logged. *)
Definition outcome {A} (r : result A) : option exn * list event :=
  match r with
  | Ok _ w => (None, events w)
  | Raise e w => (Some e, events w)
  end.

Definition world_of {A} (r : result A) : World :=
  match r with
  | Ok _ w => w
  | Raise _ w => w
  end.

(** The lines that a log prints, in order. *)
Fixpoint printed (evs : list event) : list string :=
  match evs with
  | [] => []
  | Print line :: evs' => line :: printed evs'
  | _ :: evs' => printed evs'
  end.

(** Kinds of events: a request to the version-control tool; a request or a
    printed line. *)
Definition asks_tool (e : event) : bool :=
  match e with
  | NewGitInterface _ | GitOperation _ _ => true
  | _ => false
  end.

Definition asks_or_prints (e : event) : bool :=
  match e with
  | NewGitInterface _ | GitOperation _ _ | Print _ => true
  | _ => false
  end.

(** Not a step of a full checkout: neither a [submodule] operation of the
    tool nor the reading of a manifest. *)
Definition no_full_checkout (e : event) : bool :=
  match e with
  | NewGitModules _ => false
  | GitOperation _ (a :: _) => negb (eqv a (PStr "submodule"))
  | _ => true
  end.

(** [confined P c]: however [c] ends, the process is back in the directory
    it started in, and what [c] added to the log are events of kind [P]. *)
Definition confined (P : event -> bool) {A} (c : M A) : Prop :=
  forall w,
    cwd (world_of (c w)) = cwd w /\
    exists evs, events (world_of (c w)) = (events w ++ evs)%list /\
                forallb P evs = true.

(** The class of a component names the optional token. *)
Definition mentions_optional (gitmodules : GitModules) (name : string) : bool :=
  match get gitmodules name "esmrequired" with
  | PStr s => str_in "T:F" s
  | PNone => false
  end.

(** ** A small tool and small manifests, for concrete runs *)

Module Toy.

Definition nl : string := String (ascii_of_nat 10) EmptyString.

Fixpoint assoc {V} (k : string) (l : list (string * V)) : option V :=
  match l with
  | [] => None
  | (k', v) :: l' => if k =? k' then Some v else assoc k l'
  end.

(** The manifest with the given sections, in order; [git] looks up as
    [get] does. *)
Definition manifest (entries : list (string * list (string * string))) : GitModules :=
  let look := fun name option =>
    match assoc name entries with
    | Some kv => match assoc option kv with
                 | Some v => PStr v
                 | None => PNone
                 end
    | None => PNone
    end in
  mkGitModules (map fst entries) look (fun name option => inr (look name option)).

(** The tree with the given nodes. *)
Fixpoint tree (l : list (key * node)) : FS :=
  match l with
  | [] => fun _ => None
  | (k, n) :: l' => put (tree l') k n
  end.

Fixpoint args_eqb (a b : list pyval) : bool :=
  match a, b with
  | [], [] => true
  | x :: a', y :: b' => eqv x y && args_eqb a' b'
  | _, _ => false
  end.

Record config : Type := mkConfig {
  top : string;                           (* the top-level repository *)
  remote : string;                        (* the url of its remote *)
  described : string;                     (* what describe answers *)
  refused : list (string * list pyval);   (* what the tool fails on, and where *)
  nested : list (string * GitModules)     (* checkouts that carry a manifest *)
}.

Section Tool.

Variable cfg : config.

(** Opening the top-level repository changes nothing; opening a directory
    that is no repository yet makes the metadata directory in it. *)
Definition init (c repo : string) (t : FS) : FS * (exn + unit) :=
  if repo =? top cfg then (t, inr tt)
  else
    let k := OsPath.resolve c repo in
    if isdir t k then
      if exists_ t (k ++ [".git"])%list then (t, inr tt)
      else (put (put t (k ++ [".git"])%list Dir) (k ++ [".git"; "info"])%list Dir,
            inr tt)
    else (t, inl (VcsOperationFailed "not a directory")).

(** [submodule update --init p] makes the checkout, with a pointer for
    [.git] and with its manifest when it has one. *)
Definition update_init (c repo p : string) (t : FS) : FS :=
  let dir := OsPath.join repo p in
  let k := OsPath.resolve c dir in
  let t1 := put (with_dirs t k) (k ++ [".git"])%list (File "gitdir: elsewhere") in
  match assoc dir (nested cfg) with
  | Some _ => put t1 (k ++ [".gitmodules"])%list (File "")
  | None => t1
  end.

Definition operation (c repo : string) (args : list pyval) (t : FS)
    : FS * (exn + string) :=
  if existsb (fun ra => (fst ra =? repo) && args_eqb (snd ra) args) (refused cfg)
  then (t, inl (VcsOperationFailed (fmt (hd PNone args))))
  else if args_eqb args rev_parse_args then (t, inr (top cfg ++ nl))
  else if args_eqb args describe_args then (t, inr (described cfg ++ nl))
  else if args_eqb args ls_remote_args then (t, inr (remote cfg ++ nl))
  else match args with
       | [_; _; _; PStr p] =>
           if args_eqb args (update_init_args (PStr p))
           then (update_init c repo p t, inr "")
           else (t, inr "")
       | _ => (t, inr "")
       end.

Definition read_manifest (c confpath : string) (conffile : pyval)
    (includelist excludelist : option (list string)) (t : FS) : exn + GitModules :=
  match assoc confpath (nested cfg) with
  | Some gm => inr gm
  | None => inl (ManifestError confpath)
  end.

Definition tool : External :=
  {| GitInterface_init := init;
     GitInterface_git_operation := operation;
     GitInterface_config_set_value := fun _ _ _ _ _ t => (t, inr tt);
     GitModules_init := read_manifest;
     version_info := inr "1.0" |}.

End Tool.

(** A top-level repository in [/work] with the directories of two
    components, and in one of them a sparse file. *)
Definition work : FS :=
  tree [([], Dir); (["work"], Dir); (["work"; ".git"], Dir);
        (["work"; "a"], Dir); (["work"; "a"; ".git"], File "gitdir: ../.git/modules/a");
        (["work"; "b"], Dir);
        (["work"; "ext"], Dir); (["work"; "ext"; "foo"], Dir);
        (["work"; "ext"; "foo"; "sparse_list"], File "src/")].

Definition start : World := mkWorld work "/work" [].

(** The manifest of the scenario of the spec, and the one found inside
    [ext/foo] once it is checked out: one component, of empty class. *)
Definition foo_manifest : GitModules :=
  manifest [("foo", [("path", "ext/foo"); ("url", "https://x/foo.git");
                     ("esmtag", "v1.0"); ("esmrequired", "I:T")])].

Definition inner_manifest : GitModules :=
  manifest [("bar", [("path", "sub/bar"); ("url", "https://x/bar.git");
                     ("esmrequired", "")])].

Definition nesting : config :=
  mkConfig "/work" "https://x/work.git" "v1.0" [] [("/work/ext/foo", inner_manifest)].

(** Two components side by side, and a tool that fails on the first. *)
Definition pair_manifest : GitModules :=
  manifest [("a", [("path", "a"); ("url", "https://x/a.git"); ("esmtag", "v1.0");
                   ("esmrequired", "T:T")]);
            ("b", [("path", "b"); ("url", "https://x/b.git"); ("esmtag", "v2.0");
                   ("esmrequired", "T:F")])].

Definition failing : config :=
  mkConfig "/work" "https://x/work.git" "v1.0"
    [("/work/a", describe_args); ("/work", ls_remote_args);
     ("/work", update_init_args (PStr "a"))] [].

Definition plain_tool : config :=
  mkConfig "/work" "https://x/work.git" "v1.0" [] [].

(** A component with a sparse file. *)
Definition sparse_manifest : GitModules :=
  manifest [("foo", [("path", "ext/foo"); ("url", "https://x/foo.git");
                     ("esmtag", "v1.0"); ("esmrequired", "T:T");
                     ("esmsparse", "sparse_list")])].

(** Two components that install passes over in silence. *)
Definition odd_manifest : GitModules :=
  manifest [("c", [("path", "c"); ("url", "https://x/c.git");
                   ("esmrequired", "I:F")]);
            ("d", [("path", "d"); ("url", "https://x/d.git");
                   ("esmrequired", "")])].

Definition no_install : GitModules -> string -> container -> M unit :=
  fun _ _ _ => ret tt.



Definition store : string := "/work/.git/modules".

Definition slot : string :=
  OsPath.join (OsPath.join (OsPath.join store "foo") "info") "sparse-checkout".

Definition first_run : result unit :=
  @submodule_sparse_checkout (tool plain_tool) "foo" (PStr "https://x/foo.git")
    (PStr "ext/foo") (PStr "sparse_list") (PStr "v1.0") start.


(** The worlds of a full checkout of [a]. *)
Definition handle : World :=
  world_of (@GitInterface (tool plain_tool) "/work" start).

Definition fetched : World :=
  world_of (@git_operation (tool plain_tool) "/work" (update_init_args (PStr "a")) handle).


(** Three components that install without [--optional] passes over, one
    of them optional. *)
Definition idle_manifest : GitModules :=
  manifest [("c", [("path", "c"); ("url", "https://x/c.git");
                   ("esmrequired", "I:F")]);
            ("o", [("path", "o"); ("url", "https://x/o.git");
                   ("esmrequired", "T:F")]);
            ("d", [("path", "d"); ("url", "https://x/d.git");
                   ("esmrequired", "")])].

(** [pair_manifest] with other classes and a sparse file, and
    [foo_manifest] with another url and tag. *)
Definition pair_manifest_reclassed : GitModules :=
  manifest [("a", [("path", "a"); ("url", "https://x/a.git"); ("esmtag", "v1.0");
                   ("esmrequired", "I:F"); ("esmsparse", "list")]);
            ("b", [("path", "b"); ("url", "https://x/b.git"); ("esmtag", "v2.0");
                   ("esmrequired", "")])].

Definition foo_manifest_retagged : GitModules :=
  manifest [("foo", [("path", "ext/foo"); ("url", "https://y/other.git");
                     ("esmtag", "v9.9"); ("esmrequired", "I:T")])].

(** A tool that finds [pair_manifest] at the top level. *)
Definition reading : config :=
  mkConfig "/work" "https://x/work.git" "v1.0" [] [("/work", pair_manifest)].

Definition version_options : Options.t :=
  Options.mk [] "/work" (PStr ".gitmodules") None true true true 2 true.

Definition status_options : Options.t :=
  Options.mk [] "/work" (PStr ".gitmodules") None true true true 1 false.

(** The store holds the sparse-checkout file of [foo], and the directory
    of the component is gone. *)
Definition work_removed : FS :=
  tree [([], Dir); (["work"], Dir); (["work"; ".git"], Dir);
        (["work"; ".git"; "modules"], Dir);
        (["work"; ".git"; "modules"; "foo"], Dir);
        (["work"; ".git"; "modules"; "foo"; "info"], Dir);
        (["work"; ".git"; "modules"; "foo"; "info"; "sparse-checkout"], File "src/")].

Definition removed : World := mkWorld work_removed "/work" [].

(** The store holds an entry for [foo], as a full checkout leaves one, with
    no sparse-checkout file in it; the tool has made the metadata
    directory of the component. *)
Definition work_with_entry : FS :=
  tree [([], Dir); (["work"], Dir); (["work"; ".git"], Dir);
        (["work"; ".git"; "modules"], Dir);
        (["work"; ".git"; "modules"; "foo"], Dir);
        (["work"; ".git"; "modules"; "foo"; "info"], Dir);
        (["work"; "ext"], Dir); (["work"; "ext"; "foo"], Dir);
        (["work"; "ext"; "foo"; "sparse_list"], File "src/")].

Definition opened_again : World :=
  world_of (@GitInterface (tool plain_tool) "/work/ext/foo"
              (mkWorld work_with_entry "/work" [])).

End Toy.

(** * Properties *)

(** ** Occurrence in a string *)

Lemma prefix_in_prefixes (b a : string) :
  String.prefix a b = true -> In a (prefixes b).
Proof.
  revert a. induction b as [|c b IH]; intros [|x a]; simpl; intro H;
    try discriminate; try (now left).
  right. destruct (ascii_dec x c) as [->|]; [|discriminate].
  apply in_map. now apply IH.
Qed.

Lemma str_in_cons (a : string) (c : ascii) (b : string) :
  str_in a (String c b) = String.prefix a (String c b) || str_in a b.
Proof. reflexivity. Qed.

Lemma str_in_substrings (b a : string) :
  str_in a b = true -> In a (substrings b).
Proof.
  induction b as [|c b IH]; intro H.
  - change (String.prefix a "" || false = true) in H.
    rewrite orb_false_r in H. apply prefix_in_prefixes in H.
    simpl in *. tauto.
  - rewrite str_in_cons in H. apply orb_true_iff in H.
    change (In a (prefixes (String c b) ++ substrings b)%list).
    apply in_or_app. destruct H as [H|H].
    + left. now apply prefix_in_prefixes.
    + right. now apply IH.
Qed.

(** What occurs in ["I:T"]: the class [I:T], and six strings more. *)
Lemma occurs_in_internal_required (a : string) :
  str_in a "I:T" = true <-> In a [""; "I"; "I:"; "I:T"; ":"; ":T"; "T"].
Proof.
  split.
  - intro H. apply str_in_substrings in H. simpl in H. simpl. tauto.
  - simpl. intros [<-|[<-|[<-|[<-|[<-|[<-|[<-|[]]]]]]]]; reflexivity.
Qed.

(** ** Loops *)

Section Loops.

Context {A : Type}.
Variable body : A -> M unit.

Lemma for_each_app (l1 l2 : list A) (w : World) :
  for_each (l1 ++ l2)%list body w =
  match for_each l1 body w with
  | Ok _ w1 => for_each l2 body w1
  | Raise e w1 => Raise e w1
  end.
Proof.
  revert w. induction l1 as [|x l1 IH]; intro w; simpl.
  - reflexivity.
  - unfold bind. destruct (body x w) as [[] w1|e w1]; [apply IH | reflexivity].
Qed.

(** A body that raises ends the loop: what comes after it is not run. *)
Lemma for_each_raises (l1 l2 : list A) (x : A) (w w1 w2 : World) (e : exn) :
  for_each l1 body w = Ok tt w1 ->
  body x w1 = Raise e w2 ->
  for_each (l1 ++ x :: l2)%list body w = Raise e w2.
Proof.
  intros H1 H2. rewrite for_each_app, H1. simpl. unfold bind. now rewrite H2.
Qed.

(** A body that returns hands the world it reached to the next one. *)
Lemma for_each_cons_ok (x : A) (l : list A) (w w1 : World) :
  body x w = Ok tt w1 ->
  for_each (x :: l) body w = for_each l body w1.
Proof.
  intro H. simpl. unfold bind. now rewrite H.
Qed.

End Loops.

(** ** Paths *)

Module OsPathFacts.
Import OsPath.

Lemma append_assoc (a b c : string) : (a ++ b) ++ c = a ++ (b ++ c).
Proof. induction a as [|x a IH]; simpl; [reflexivity | now rewrite IH]. Qed.

Lemma split_not_nil (s : string) : split s <> [].
Proof.
  induction s as [|c s IH]; simpl; [discriminate|].
  destruct (Ascii.eqb c sep); [discriminate|].
  destruct (split s); discriminate.
Qed.

(** Splitting at a separator splits the list of components. *)
Lemma split_app_sep (a b : string) :
  split (a ++ String sep b) = (split a ++ split b)%list.
Proof.
  induction a as [|c a IH]; simpl.
  - reflexivity.
  - destruct (Ascii.eqb c sep).
    + now rewrite IH.
    + rewrite IH. destruct (split a) eqn:E; [now apply split_not_nil in E|].
      reflexivity.
Qed.

Lemma endswith_sep_inv (a : string) :
  endswith_sep a = true -> exists a', a = a' ++ String sep "".
Proof.
  induction a as [|c a IH]; simpl; [discriminate|].
  destruct a as [|c' a'].
  - intro H. apply Ascii.eqb_eq in H. subst. now exists "".
  - intro H. destruct (IH H) as [x Hx]. exists (String c x). simpl. now rewrite Hx.
Qed.

Lemma norm_from_app_sep (stack : list string) (a b : string) :
  norm_from stack (a ++ String sep b) =
  fold_left norm_step (split b) (norm_from stack a).
Proof.
  unfold norm_from. now rewrite split_app_sep, fold_left_app.
Qed.

(** Normalising a join normalises the left part and goes on with the right. *)
Lemma norm_from_join (stack : list string) (a b : string) :
  startswith_sep b = false ->
  norm_from stack (join a b) = fold_left norm_step (split b) (norm_from stack a).
Proof.
  intro Hb. unfold join. rewrite Hb.
  destruct (a =? "") eqn:Ea; simpl.
  - apply String.eqb_eq in Ea. subst. reflexivity.
  - destruct (endswith_sep a) eqn:Ee.
    + destruct (endswith_sep_inv a Ee) as [a' ->].
      rewrite append_assoc. simpl.
      rewrite norm_from_app_sep.
      rewrite (norm_from_app_sep stack a' ""). reflexivity.
    + apply norm_from_app_sep.
Qed.

Lemma startswith_sep_join (a b : string) :
  startswith_sep b = false -> startswith_sep (join a b) = startswith_sep a.
Proof.
  intro Hb. unfold join. rewrite Hb.
  destruct a as [|c a]; [exact Hb|].
  change (String c a =? "") with false. cbv beta iota. rewrite orb_false_l.
  destruct (endswith_sep (String c a)); reflexivity.
Qed.

Lemma join_absolute (a b : string) : startswith_sep b = true -> join a b = b.
Proof. intro H. unfold join. now rewrite H. Qed.

(** The components of [join p b], for a relative [b], are those of [p]
    followed by what [b] adds. *)
Lemma resolve_join (c p b : string) :
  startswith_sep b = false ->
  resolve c (join p b) =
  rev (fold_left norm_step (split b) (rev (resolve c p))).
Proof.
  intro Hb. unfold resolve. rewrite rev_involutive. f_equal.
  destruct (startswith_sep p) eqn:Hp.
  - rewrite (join_absolute c p Hp).
    rewrite (join_absolute c (join p b)) by (now rewrite startswith_sep_join).
    now apply norm_from_join.
  - rewrite (norm_from_join [] c (join p b)) by (now rewrite startswith_sep_join).
    change (fold_left norm_step (split (join p b)) (norm_from [] c))
      with (norm_from (norm_from [] c) (join p b)).
    rewrite norm_from_join by assumption.
    now rewrite (norm_from_join [] c p Hp).
Qed.

Lemma plain_relative (b : string) : plain b -> startswith_sep b = false.
Proof.
  intros (Hs & He & _). destruct b as [|c b]; [reflexivity|].
  simpl in *. destruct (Ascii.eqb c sep); [discriminate | reflexivity].
Qed.

Lemma resolve_join_plain (c p b : string) :
  plain b -> resolve c (join p b) = (resolve c p ++ [b])%list.
Proof.
  intro Hb. rewrite resolve_join by (now apply plain_relative).
  destruct Hb as (Hs & He & Hd & Hdd). rewrite Hs. simpl.
  unfold norm_step. rewrite He, Hd, Hdd. simpl. now rewrite rev_involutive.
Qed.

Lemma plain_git : plain ".git".
Proof. repeat split. Qed.

Lemma plain_gitmodules : plain ".gitmodules".
Proof. repeat split. Qed.

Lemma plain_info : plain "info".
Proof. repeat split. Qed.

Lemma plain_sparse_checkout : plain "sparse-checkout".
Proof. repeat split. Qed.

End OsPathFacts.

(** ** The file tree *)

Module FileSysFacts.

Lemma key_eqb_refl (k : key) : key_eqb k k = true.
Proof. induction k as [|x k IH]; simpl; [reflexivity|]. now rewrite String.eqb_refl. Qed.

Lemma key_eqb_eq (a b : key) : key_eqb a b = true <-> a = b.
Proof.
  split.
  - revert b. induction a as [|x a IH]; destruct b as [|y b]; simpl; try discriminate.
    + reflexivity.
    + intro H. apply andb_true_iff in H. destruct H as [H1 H2].
      apply String.eqb_eq in H1. subst. f_equal. now apply IH.
  - intros ->. apply key_eqb_refl.
Qed.

Lemma key_eqb_neq (a b : key) : a <> b -> key_eqb a b = false.
Proof.
  intro H. destruct (key_eqb a b) eqn:E; [|reflexivity].
  apply key_eqb_eq in E. contradiction.
Qed.

Lemma strip_app (p r : key) : strip p (p ++ r)%list = Some r.
Proof. induction p as [|x p IH]; simpl; [reflexivity|]. now rewrite String.eqb_refl. Qed.

Lemma strip_inv (p k r : key) : strip p k = Some r -> k = (p ++ r)%list.
Proof.
  revert k. induction p as [|x p IH]; intros k; simpl.
  - intro H. now inversion H.
  - destruct k as [|y k]; [discriminate|].
    destruct (x =? y) eqn:E; [|discriminate].
    apply String.eqb_eq in E. subst. intro H. f_equal. now apply IH.
Qed.

Lemma below_app (p r : key) : below p (p ++ r)%list = true.
Proof. unfold below. now rewrite strip_app. Qed.

Lemma below_refl (p : key) : below p p = true.
Proof. rewrite <- (app_nil_r p) at 2. apply below_app. Qed.

Lemma below_inv (p k : key) : below p k = true -> exists r, k = (p ++ r)%list.
Proof.
  unfold below. destruct (strip p k) as [r|] eqn:E; [|discriminate].
  intros _. exists r. now apply strip_inv.
Qed.

Lemma below_trans (a b c : key) :
  below a b = true -> below b c = true -> below a c = true.
Proof.
  intros H1 H2. apply below_inv in H1, H2. destruct H1 as [r1 ->], H2 as [r2 ->].
  rewrite <- app_assoc. apply below_app.
Qed.

Lemma below_longer (p r : key) : r <> [] -> below (p ++ r)%list p = false.
Proof.
  intro Hr. destruct (below (p ++ r)%list p) eqn:E; [|reflexivity].
  apply below_inv in E. destruct E as [r' E].
  rewrite <- app_assoc in E. rewrite <- (app_nil_r p) in E at 1.
  apply app_inv_head in E. symmetry in E. apply app_eq_nil in E. tauto.
Qed.

Lemma parent_snoc (k : key) (x : string) : parent (k ++ [x])%list = k.
Proof. apply removelast_last. Qed.



Lemma put_same (t : FS) (k : key) (n : node) : put t k n k = Some n.
Proof. unfold put. now rewrite key_eqb_refl. Qed.

Lemma put_other (t : FS) (k q : key) (n : node) : q <> k -> put t k n q = t q.
Proof. intro H. unfold put. now rewrite key_eqb_neq. Qed.

(** Making directories leaves what is there as it is. *)
Lemma with_dirs_present (t : FS) (k q : key) (n : node) :
  t q = Some n -> with_dirs t k q = Some n.
Proof. intro H. unfold with_dirs. rewrite H. now destruct (below q k). Qed.

Lemma with_dirs_off_path (t : FS) (k q : key) :
  below q k = false -> with_dirs t k q = t q.
Proof. intro H. unfold with_dirs. now rewrite H. Qed.


Lemma with_dirs_made (t : FS) (k : key) : t k = None -> with_dirs t k k = Some Dir.
Proof. intro H. unfold with_dirs. now rewrite below_refl, H. Qed.

Lemma renamed_at_dst (t : FS) (s d r : key) :
  renamed t s d (d ++ r)%list = t (s ++ r)%list.
Proof. unfold renamed. now rewrite strip_app. Qed.

Lemma renamed_dst (t : FS) (s d : key) : renamed t s d d = t s.
Proof.
  rewrite <- (app_nil_r d) at 2. rewrite renamed_at_dst. now rewrite app_nil_r.
Qed.

End FileSysFacts.

#[local] Arguments String.append : simpl never.

Ltac run_step :=
  unfold bind, ret, raise, print, logging_warning, as_str, os_getcwd,
    os_path_isdir, os_path_isfile, os_path_exists, os_path_relpath in *;
  simpl in *.

(** ** Steps that return *)

Lemma bind_ok {A B} (c : M A) (k : A -> M B) (w w' : World) (b : B) :
  bind c k w = Ok b w' -> exists a w1, c w = Ok a w1 /\ k a w1 = Ok b w'.
Proof.
  unfold bind. destruct (c w) as [a w1|e w1]; [|discriminate].
  intro H. now exists a, w1.
Qed.

Lemma os_makedirs_ok (p : string) (w w' : World) :
  os_makedirs p w = Ok tt w' ->
  let k := OsPath.resolve (cwd w) p in
  fs w k = None /\ w' = emit (Makedirs k) (set_fs (with_dirs (fs w) k) w).
Proof.
  unfold os_makedirs, exists_. cbv zeta.
  destruct (fs w (OsPath.resolve (cwd w) p)) eqn:E; [discriminate|].
  destruct (blocked (fs w) [] (OsPath.resolve (cwd w) p)); [discriminate|].
  intro H. inversion H. now split.
Qed.


(** A copy onto a place that is no directory. *)
Lemma shutil_copy_ok (src dst : string) (w w' : World) :
  let s := OsPath.resolve (cwd w) src in
  let d := OsPath.resolve (cwd w) dst in
  isdir (fs w) d = false ->
  shutil_copy src dst w = Ok tt w' ->
  exists c, fs w s = Some (File c) /\
            w' = emit (Copied s d) (set_fs (put (fs w) d (File c)) w).
Proof.
  intros s d Hd. unfold shutil_copy. cbv zeta. fold s d. rewrite !Hd.
  destruct (fs w s) as [[|c]|] eqn:Es; try discriminate.
  - destruct (key_eqb s d); discriminate.
  - destruct (key_eqb s d); [discriminate|].
    destruct (isdir (fs w) (parent d)); [|discriminate].
    intro H. inversion H. now exists c.
Qed.

Lemma write_file_ok (p content : string) (w w' : World) :
  write_file p content w = Ok tt w' ->
  let k := OsPath.resolve (cwd w) p in
  isdir (fs w) (parent k) = true /\
  w' = emit (Wrote k content) (set_fs (put (fs w) k (File content)) w).
Proof.
  unfold write_file. cbv zeta.
  destruct (isdir (fs w) (OsPath.resolve (cwd w) p)); [discriminate|].
  destruct (isdir (fs w) (parent (OsPath.resolve (cwd w) p))); [|discriminate].
  intro H. inversion H. now split.
Qed.

Section Engine.

Context {ext : External}.

(** ** Steps of the tool, and what they log *)

Lemma grows_refl (w : World) : grows w w [].
Proof. split; [reflexivity | now rewrite app_nil_r]. Qed.

Lemma grows_trans (w w' w'' : World) (e1 e2 : list event) :
  grows w w' e1 -> grows w' w'' e2 -> grows w w'' (e1 ++ e2)%list.
Proof.
  intros [C1 E1] [C2 E2]. split; [congruence|].
  now rewrite E2, E1, app_assoc.
Qed.

Lemma grows_emit (w : World) (t : FS) (e : event) :
  grows w (emit e (set_fs t w)) [e].
Proof. now split. Qed.

Lemma lift_tool_ok {A} (e : event) (f : string -> FS -> FS * (exn + A))
    (w w' : World) (a : A) :
  lift_tool e f w = Ok a w' ->
  f (cwd w) (fs w) = (fs w', inr a) /\ grows w w' [e].
Proof.
  unfold lift_tool. destruct (f (cwd w) (fs w)) as [t [x|a']]; [discriminate|].
  intro H. inversion H. now split.
Qed.

Lemma GitInterface_ok (repo git_ : string) (w w' : World) :
  GitInterface repo w = Ok git_ w' ->
  git_ = repo /\
  GitInterface_init (cwd w) repo (fs w) = (fs w', inr tt) /\
  grows w w' [NewGitInterface repo].
Proof.
  unfold GitInterface. intro H. apply bind_ok in H.
  destruct H as ([] & w0 & H0 & H). inversion H. subst.
  apply lift_tool_ok in H0. tauto.
Qed.

Lemma git_operation_ok (git_ out : string) (args : list pyval) (w w' : World) :
  git_operation git_ args w = Ok out w' ->
  GitInterface_git_operation (cwd w) git_ args (fs w) = (fs w', inr out) /\
  grows w w' [GitOperation git_ args].
Proof. unfold git_operation. apply lift_tool_ok. Qed.

Lemma config_set_value_ok (git_ section option value : string) (w w' : World) :
  config_set_value git_ section option value w = Ok tt w' ->
  grows w w' [ConfigSetValue git_ section option value].
Proof. unfold config_set_value. intro H. now apply lift_tool_ok in H. Qed.



(** ** Requirement classes at install *)

(** C10: at install, a component whose requirement class is a string that
    the accepted set does not hold and in which ["T:F"] does not occur is
    passed over without a trace: the world after its turn is the world
    before it, so nothing is printed and no checkout is tried, and the
    loop goes on with the components after it. *)
Theorem install_skips_other_classes_silently
    (install : GitModules -> string -> container -> M unit)
    (gitmodules : GitModules) (root_dir : string) (requiredlist : container)
    (name esmrequired : string) (rest : list string) (w : World) :
  get gitmodules name "esmrequired" = PStr esmrequired ->
  py_in (PStr esmrequired) requiredlist w = Ok false w ->
  str_in "T:F" esmrequired = false ->
  install_of install gitmodules root_dir requiredlist name w = Ok tt w /\
  for_each (name :: rest) (install_of install gitmodules root_dir requiredlist) w =
  for_each rest (install_of install gitmodules root_dir requiredlist) w.
Proof.
  intros Hget Hin Hopt.
  assert (Hstep : install_of install gitmodules root_dir requiredlist name w = Ok tt w).
  { unfold install_of. rewrite Hget. unfold bind at 1. rewrite Hin. simpl.
    unfold bind, str_in_val, ret. now rewrite Hopt. }
  split; [exact Hstep|].
  now apply for_each_cons_ok.
Qed.

(** A class that is [None] is in no tuple, and the test for ["T:F"] in it
    is a type error. *)
Lemma install_of_none_class_raises
    (install : GitModules -> string -> container -> M unit)
    (gitmodules : GitModules) (root_dir name : string) (t : list string) (w : World) :
  get gitmodules name "esmrequired" = PNone ->
  install_of install gitmodules root_dir (Tuple t) name w = Raise TypeError w.
Proof.
  intro Hget. unfold install_of. rewrite Hget. unfold bind at 1. simpl.
  induction t as [|y t IH]; [reflexivity | exact IH].
Qed.

(** With neither [--status] nor [--update] nor [--version], the main
    function reads the manifest and installs it with the classes that
    [--optional] selects. *)
Lemma main_func_installs_with_classes
    (depth : nat) (options : Options.t) (gitmodules : GitModules) (w w1 : World) :
  Options.version options = false ->
  Options.status options = false ->
  Options.update options = false ->
  Options.verbose options = 0 ->
  GitModules_new (Options.path options) (Options.gitmodules options)
    (Some (Options.components options)) (Options.exclude options) w
    = Ok gitmodules w1 ->
  _main_func depth options w =
  submodules_install depth gitmodules (Options.path options)
    (if Options.optional options
     then Tuple ["T:T"; "T:F"; "I:T"] else Tuple ["T:T"; "I:T"]) w1.
Proof.
  intros Hv Hs Hu Hverb Hgm.
  unfold _main_func, commandline_arguments. rewrite Hv, Hs, Hu, Hverb.
  unfold bind at 1. simpl. unfold bind at 1. simpl.
  unfold bind at 1. rewrite Hgm. reflexivity.
Qed.

(** In the pass over a nested manifest the accepted classes are the one
    string ["I:T"]: a component is taken when its class occurs in it. *)
Lemma nested_pass_takes_what_occurs
    (install : GitModules -> string -> container -> M unit)
    (gitmodules : GitModules) (root_dir name esmrequired : string) (w : World) :
  get gitmodules name "esmrequired" = PStr esmrequired ->
  str_in esmrequired "I:T" = true ->
  install_of install gitmodules root_dir (Str "I:T") name w =
    (if truthy (get gitmodules name "esmsparse")
     then submodule_sparse_checkout name (get gitmodules name "url")
            (get gitmodules name "path") (get gitmodules name "esmsparse")
            (get gitmodules name "esmtag") w
     else submodule_checkout install root_dir name (get gitmodules name "path") w).
Proof.
  intros Hget Hin. unfold install_of. rewrite Hget. unfold bind at 1.
  unfold py_in, ret. rewrite Hin. cbv beta iota. unfold negb.
  destruct (truthy (get gitmodules name "esmsparse")); reflexivity.
Qed.

(** ** Status *)

(** C6: the line that status prints for a component is [status_line] of
    the declared tag, as the manifest gives it, and of the stripped output
    of [describe], and of nothing else in the world: out of sync when a tag is declared and the
    description differs, at the tag when it is declared and they agree, no
    tag defined when none is declared, whatever the description. *)
Theorem status_classification
    (gitmodules : GitModules) (root_dir name p out : string) (tag : pyval)
    (t1 t2 : FS) (w : World) :
  let atag := rstrip out in
  let here := OsPath.render (OsPath.resolve (cwd w) p) in
  let repo := OsPath.join root_dir p in
  git gitmodules name "esmtag" = inr tag ->
  get gitmodules name "path" = PStr p ->
  fs w (OsPath.resolve (cwd w) p) = Some Dir ->
  GitInterface_init here repo (fs w) = (t1, inr tt) ->
  GitInterface_git_operation here repo describe_args t1 = (t2, inr out) ->
  status_of gitmodules root_dir name w =
    Ok tt (mkWorld t2 (cwd w)
             (events w ++ [NewGitInterface repo; GitOperation repo describe_args;
                           Print (status_line name tag atag)])%list) /\
  (truthy tag = true -> PStr atag <> tag ->
   status_line name tag atag =
   "Submodule " ++ name ++ " " ++ atag ++ " is out of sync with .gitmodules " ++ fmt tag) /\
  (truthy tag = true -> PStr atag = tag ->
   status_line name tag atag = "Submodule " ++ name ++ " at tag " ++ fmt tag) /\
  (truthy tag = false ->
   status_line name tag atag = "Submodule " ++ name ++ " has no tag defined in .gitmodules").
Proof.
  intros atag here repo Htag Hpath Hdir Hinit Hop. repeat split.
  - unfold status_of. rewrite Htag, Hpath. unfold bind at 1. simpl.
    unfold bind at 1. simpl.
    unfold pushd. rewrite Hdir.
    unfold GitInterface, git_operation, lift_tool, bind, ret, print. simpl.
    fold here repo. rewrite Hinit. simpl. rewrite Hop. simpl.
    unfold emit, set_fs, set_cwd. simpl.
    now rewrite <- !app_assoc.
  - intros Ht Hne. unfold status_line. rewrite Ht.
    destruct (eqv (PStr atag) tag) eqn:E; simpl; [|reflexivity].
    exfalso. apply Hne. destruct tag as [|s]; simpl in E; [discriminate|].
    apply String.eqb_eq in E. now subst.
  - intros Ht He. unfold status_line. rewrite Ht, <- He. simpl.
    now rewrite String.eqb_refl.
  - intros Ht. unfold status_line. now rewrite Ht.
Qed.

(** ** A failing step *)

(** When the lookup of line 227 raises, status raises with it before
    anything is asked of the tool. *)
Lemma status_of_lookup_raises
    (gitmodules : GitModules) (root_dir name : string) (e : exn) (w : World) :
  git gitmodules name "esmtag" = inl e ->
  status_of gitmodules root_dir name w = Raise e w.
Proof. intro H. unfold status_of. now rewrite H. Qed.

(** Status raises what [describe] raises. *)
Lemma status_of_describe_fails
    (gitmodules : GitModules) (root_dir name p : string) (tag : pyval)
    (t1 t2 : FS) (e : exn) (w : World) :
  let here := OsPath.render (OsPath.resolve (cwd w) p) in
  let repo := OsPath.join root_dir p in
  git gitmodules name "esmtag" = inr tag ->
  get gitmodules name "path" = PStr p ->
  fs w (OsPath.resolve (cwd w) p) = Some Dir ->
  GitInterface_init here repo (fs w) = (t1, inr tt) ->
  GitInterface_git_operation here repo describe_args t1 = (t2, inl e) ->
  status_of gitmodules root_dir name w =
    Raise e (mkWorld t2 (cwd w)
               (events w ++ [NewGitInterface repo; GitOperation repo describe_args])%list).
Proof.
  intros here repo Htag Hpath Hdir Hinit Hop.
  unfold status_of. rewrite Htag, Hpath. unfold bind at 1. simpl.
  unfold bind at 1. simpl.
  unfold pushd. rewrite Hdir.
  unfold GitInterface, git_operation, lift_tool, bind, ret. simpl.
  fold here repo. rewrite Hinit. simpl. rewrite Hop. simpl.
  unfold emit, set_fs, set_cwd. simpl. now rewrite <- !app_assoc.
Qed.

(** Update raises what [ls-remote] raises. *)
Lemma update_of_ls_remote_fails
    (gitmodules : GitModules) (root_dir name p : string)
    (t1 t2 : FS) (e : exn) (w : World) :
  let here := OsPath.render (OsPath.resolve (cwd w) root_dir) in
  get gitmodules name "path" = PStr p ->
  exists_ (fs w) (OsPath.resolve (cwd w) (OsPath.join p ".git")) = true ->
  fs w (OsPath.resolve (cwd w) root_dir) = Some Dir ->
  GitInterface_init here root_dir (fs w) = (t1, inr tt) ->
  GitInterface_git_operation here root_dir ls_remote_args t1 = (t2, inl e) ->
  update_of gitmodules root_dir name w =
    Raise e (mkWorld t2 (cwd w)
               (events w ++ [NewGitInterface root_dir;
                             GitOperation root_dir ls_remote_args])%list).
Proof.
  intros here Hpath Hex Hdir Hinit Hop.
  unfold update_of. rewrite Hpath. run_step. rewrite Hex.
  unfold pushd. rewrite Hdir.
  unfold GitInterface, git_operation, lift_tool, bind, ret. simpl.
  fold here. rewrite Hinit. simpl. rewrite Hop. simpl.
  unfold emit, set_fs, set_cwd. simpl. now rewrite <- !app_assoc.
Qed.

(** A full checkout raises what [submodule update --init] raises. *)
Lemma submodule_checkout_update_fails
    (install : GitModules -> string -> container -> M unit)
    (root name p : string) (t1 t2 : FS) (e : exn) (w : World) :
  GitInterface_init (cwd w) root (fs w) = (t1, inr tt) ->
  GitInterface_git_operation (cwd w) root (update_init_args (PStr p)) t1 = (t2, inl e) ->
  submodule_checkout install root name (PStr p) w =
    Raise e (mkWorld t2 (cwd w)
               (events w ++ [NewGitInterface root;
                             GitOperation root (update_init_args (PStr p))])%list).
Proof.
  intros Hinit Hop.
  unfold submodule_checkout, GitInterface, git_operation, lift_tool, bind, ret.
  simpl. rewrite Hinit. simpl. rewrite Hop. simpl.
  unfold emit, set_fs. simpl. now rewrite <- !app_assoc.
Qed.

(** C2, as the script has it: no loop of the script catches an exception,
    so in status, in update and in install alike, once the components
    before [name] are done and the turn of [name] raises, the operation
    ends with that exception in the world the turn reached, and the
    components after [name] get no turn. *)
Theorem failure_ends_every_loop
    (gitmodules : GitModules) (root_dir : string) (depth : nat)
    (requiredlist : container) (before after : list string) (name : string)
    (e : exn) (w w1 w2 : World) :
  sections gitmodules = (before ++ name :: after)%list ->
  (for_each before (status_of gitmodules root_dir) w = Ok tt w1 ->
   status_of gitmodules root_dir name w1 = Raise e w2 ->
   submodules_status gitmodules root_dir w = Raise e w2) /\
  (for_each before (update_of gitmodules root_dir) w = Ok tt w1 ->
   update_of gitmodules root_dir name w1 = Raise e w2 ->
   submodules_update gitmodules root_dir w = Raise e w2) /\
  (for_each before
     (install_of (submodules_install depth) gitmodules root_dir requiredlist) w
     = Ok tt w1 ->
   install_of (submodules_install depth) gitmodules root_dir requiredlist name w1
     = Raise e w2 ->
   submodules_install (S depth) gitmodules root_dir requiredlist w = Raise e w2).
Proof.
  intro Hs. repeat split; intros H1 H2.
  - unfold submodules_status. rewrite Hs. eapply for_each_raises; eassumption.
  - unfold submodules_update. rewrite Hs. eapply for_each_raises; eassumption.
  - simpl. rewrite Hs. eapply for_each_raises; eassumption.
Qed.

(** ** Update *)

(** C7: a component whose path holds no [.git] is passed over and the
    world is left as it was.  One that holds it has the remote of
    [root_dir] asked for; when the answer is the declared url nothing more
    is asked of the tool, and when it is not, the url is added as the
    remote [newbranch] and the declared tag is checked out. *)
Theorem update_reconciles
    (gitmodules : GitModules) (root_dir name p out : string)
    (t1 t2 : FS) (w : World) :
  let url := get gitmodules name "url" in
  let esmtag := get gitmodules name "esmtag" in
  let marker := exists_ (fs w) (OsPath.resolve (cwd w) (OsPath.join p ".git")) in
  let here := OsPath.render (OsPath.resolve (cwd w) root_dir) in
  let asked := (events w ++ [NewGitInterface root_dir;
                             GitOperation root_dir ls_remote_args])%list in
  let add_args := remote_add_args "newbranch" url in
  get gitmodules name "path" = PStr p ->
  (marker = false -> update_of gitmodules root_dir name w = Ok tt w) /\
  (marker = true ->
   fs w (OsPath.resolve (cwd w) root_dir) = Some Dir ->
   GitInterface_init here root_dir (fs w) = (t1, inr tt) ->
   GitInterface_git_operation here root_dir ls_remote_args t1 = (t2, inr out) ->
   (eqv (PStr (rstrip out)) url = true ->
    update_of gitmodules root_dir name w = Ok tt (mkWorld t2 (cwd w) asked)) /\
   (eqv (PStr (rstrip out)) url = false ->
    forall (t3 t4 : FS) (o3 o4 : string),
    GitInterface_git_operation here root_dir add_args t2 = (t3, inr o3) ->
    GitInterface_git_operation here root_dir (checkout_args esmtag) t3 = (t4, inr o4) ->
    update_of gitmodules root_dir name w =
      Ok tt (mkWorld t4 (cwd w)
               (asked ++ [GitOperation root_dir add_args;
                          GitOperation root_dir (checkout_args esmtag)])%list))).
Proof.
  intros url esmtag marker here asked add_args Hpath. split.
  - intro Hm. unfold update_of. rewrite Hpath. run_step.
    fold marker. now rewrite Hm.
  - intros Hm Hdir Hinit Hop.
    assert (Hshape : update_of gitmodules root_dir name w =
      restore_cwd (cwd w)
        ((if negb (eqv (PStr (rstrip out)) url)
          then git_operation root_dir add_args ;;;
               git_operation root_dir (checkout_args esmtag) ;;; ret tt
          else ret tt) (mkWorld t2 here asked))).
    { unfold update_of. rewrite Hpath. run_step. fold marker. rewrite Hm.
      unfold pushd. rewrite Hdir.
      unfold GitInterface, git_operation, lift_tool, bind, ret. simpl.
      fold here. rewrite Hinit. simpl. rewrite Hop. simpl.
      unfold emit, set_fs, set_cwd. simpl. subst asked.
      now rewrite <- !app_assoc. }
    split.
    + intro He. rewrite Hshape, He. reflexivity.
    + intros He t3 t4 o3 o4 H3 H4. rewrite Hshape, He. simpl.
      unfold git_operation, lift_tool, bind, ret. simpl.
      rewrite H3. simpl. rewrite H4. simpl.
      unfold emit, set_fs, set_cwd. simpl. now rewrite <- !app_assoc.
Qed.

(** ** Full checkout *)

(** C8: once [submodule update --init] and the pass over a nested manifest
    are done, a full checkout looks for [.git] in the component: with it,
    the success line naming the component is printed; without it, the
    checkout ends in the fatal error naming the component. *)
Theorem checkout_postcondition
    (install : GitModules -> string -> container -> M unit)
    (root name p git_ out : string) (w w1 w2 w3 : World) :
  let repodir := OsPath.join root p in
  let marker := exists_ (fs w3) (OsPath.resolve (cwd w3) (OsPath.join repodir ".git")) in
  GitInterface root w = Ok git_ w1 ->
  git_operation git_ (update_init_args (PStr p)) w1 = Ok out w2 ->
  nested_install install name repodir w2 = Ok tt w3 ->
  (marker = true ->
   submodule_checkout install root name (PStr p) w =
     Ok tt (emit (Print ("Successfully checked out " ++ name)) w3)) /\
  (marker = false ->
   submodule_checkout install root name (PStr p) w =
     Raise (FatalError ("Failed to checkout " ++ name)) w3).
Proof.
  intros repodir marker H1 H2 H3.
  assert (Hshape : submodule_checkout install root name (PStr p) w =
    if marker then Ok tt (emit (Print ("Successfully checked out " ++ name)) w3)
    else Raise (FatalError ("Failed to checkout " ++ name)) w3).
  { unfold submodule_checkout. unfold bind at 1. rewrite H1.
    unfold bind at 1. simpl. unfold bind at 1.
    rewrite H2.
    unfold bind at 1. fold repodir. rewrite H3.
    run_step. fold repodir marker. destruct marker; reflexivity. }
  split; intro Hm; rewrite Hshape, Hm; reflexivity.
Qed.

(** ** Sparse or full *)

(** C4: for a component that install accepts, the sparse file alone picks
    the checkout: set, the turn of the component is the sparse checkout;
    unset, it is the full checkout.  A full checkout that returns has asked
    the tool for [submodule update --init], gone through the manifest
    nested in the component if there is one, and printed its line; with no
    nested manifest that is all there is in the log, so the script has
    written nothing to the file tree, and no sparse-checkout file. *)
Theorem sparse_spec_selects_checkout
    (install : GitModules -> string -> container -> M unit)
    (gitmodules : GitModules) (root_dir name : string)
    (requiredlist : container) (w : World) :
  let esmsparse := get gitmodules name "esmsparse" in
  let path := get gitmodules name "path" in
  py_in (get gitmodules name "esmrequired") requiredlist w = Ok true w ->
  (truthy esmsparse = true ->
   install_of install gitmodules root_dir requiredlist name w =
   submodule_sparse_checkout name (get gitmodules name "url") path esmsparse
     (get gitmodules name "esmtag") w) /\
  (truthy esmsparse = false ->
   install_of install gitmodules root_dir requiredlist name w =
   submodule_checkout install root_dir name path w /\
   (forall w', submodule_checkout install root_dir name path w = Ok tt w' ->
      exists (p : string) (w2 w3 : World),
        path = PStr p /\
        grows w w2 [NewGitInterface root_dir;
                    GitOperation root_dir (update_init_args path)] /\
        nested_install install name (OsPath.join root_dir p) w2 = Ok tt w3 /\
        w' = emit (Print ("Successfully checked out " ++ name)) w3) /\
   forall (p out : string) (t1 t2 : FS),
     path = PStr p ->
     GitInterface_init (cwd w) root_dir (fs w) = (t1, inr tt) ->
     GitInterface_git_operation (cwd w) root_dir (update_init_args path) t1
       = (t2, inr out) ->
     exists_ t2 (OsPath.resolve (cwd w)
                   (OsPath.join (OsPath.join root_dir p) ".gitmodules")) = false ->
     let asked := (events w ++ [NewGitInterface root_dir;
                                GitOperation root_dir (update_init_args path)])%list in
     install_of install gitmodules root_dir requiredlist name w =
       if exists_ t2 (OsPath.resolve (cwd w)
                        (OsPath.join (OsPath.join root_dir p) ".git"))
       then Ok tt (mkWorld t2 (cwd w)
                     (asked ++ [Print ("Successfully checked out " ++ name)])%list)
       else Raise (FatalError ("Failed to checkout " ++ name))
              (mkWorld t2 (cwd w) asked)).
Proof.
  intros esmsparse path Hacc.
  assert (Hshape : install_of install gitmodules root_dir requiredlist name w =
    if truthy esmsparse
    then submodule_sparse_checkout name (get gitmodules name "url") path esmsparse
           (get gitmodules name "esmtag") w
    else submodule_checkout install root_dir name path w).
  { unfold install_of. unfold bind at 1. rewrite Hacc. simpl.
    fold esmsparse path. destruct (truthy esmsparse); reflexivity. }
  split; intro Hs; rewrite Hshape, Hs; [reflexivity|].
  split; [reflexivity|]. split.
  { intros w' H. unfold submodule_checkout in H.
    apply bind_ok in H. destruct H as (git_ & wA & HA & H).
    apply GitInterface_ok in HA. destruct HA as (-> & _ & G).
    apply bind_ok in H. destruct H as (p & w0 & H0 & H).
    destruct path as [|p0] eqn:Epath; [discriminate H0|].
    inversion H0. subst p0 w0. clear H0.
    apply bind_ok in H. destruct H as (out & wB & HB & H).
    apply git_operation_ok in HB. destruct HB as [_ HB].
    pose proof (grows_trans _ _ _ _ _ G HB) as G2.
    apply bind_ok in H. destruct H as ([] & wC & HC & H).
    apply bind_ok in H. destruct H as (marker & w0 & H0 & H).
    inversion H0. subst marker w0. clear H0.
    exists p, wB, wC. repeat split; try apply G2; try assumption.
    destruct (exists_ (fs wC) _); [now inversion H | discriminate H]. }
  intros p out t1 t2 Hp Hinit Hop Hnone asked.
  subst asked. subst path. rewrite Hp in *.
  unfold submodule_checkout, nested_install, GitInterface, git_operation,
    lift_tool, fatal_error.
  run_step. rewrite Hinit. simpl.
  rewrite Hop. simpl. rewrite Hnone.
  unfold emit, set_fs. simpl.
  destruct (exists_ t2 (OsPath.resolve (cwd w)
                          (OsPath.join (OsPath.join root_dir p) ".git")));
    simpl; rewrite <- ?app_assoc; reflexivity.
Qed.

(** ** Sparse checkout: the metadata goes to the store *)

Lemma last_differs (a b : key) (x y : string) :
  x <> y -> (a ++ [x])%list <> (b ++ [y])%list.
Proof.
  intros Hxy H. apply app_inj_tail in H. destruct H as [_ H]. contradiction.
Qed.


(** ** Sparse checkout: the second run *)


Ltac next_step H x w Hx :=
  apply bind_ok in H; destruct H as (x & w & Hx & H).

Ltac grow G Hstep :=
  let G' := fresh "G" in
  pose proof (grows_trans _ _ _ _ _ G Hstep) as G'; clear G; rename G' into G.


Lemma slot_is_not_pointer (c top name p : string) :
  let topgit := OsPath.join (OsPath.join top ".git") "modules" in
  let gitsparse :=
    OsPath.join (OsPath.join (OsPath.join topgit name) "info") "sparse-checkout" in
  OsPath.resolve c gitsparse <> (OsPath.resolve c p ++ [".git"])%list.
Proof.
  intros topgit gitsparse. subst gitsparse.
  rewrite (OsPathFacts.resolve_join_plain _ _ _ OsPathFacts.plain_sparse_checkout).
  apply last_differs. discriminate.
Qed.





(** A sparse checkout that printed its line of success ran the relocation
    of lines 190 to 199, after the tool's [remote add] and before its
    [fetch] and [checkout]. *)
Lemma sparse_checkout_runs_relocation
    (name p sf : string) (url tag : pyval) (w w' : World) (pre : list event) :
  submodule_sparse_checkout name url (PStr p) (PStr sf) tag w = Ok tt w' ->
  events w' = (pre ++ [Print ("Successfully checked out " ++ name)])%list ->
  exists (top : string) (wa wb wh wi : World) (o1 o2 : string),
    let topgit := OsPath.join (OsPath.join top ".git") "modules" in
    let gitsparse :=
      OsPath.join (OsPath.join (OsPath.join topgit name) "info") "sparse-checkout" in
    cwd wa = cwd w /\
    relocate_metadata name p (PStr sf) topgit gitsparse wa = Ok tt wb /\
    git_operation (OsPath.join top p) fetch_args wb = Ok o1 wh /\
    git_operation (OsPath.join top p) (checkout_args tag) wh = Ok o2 wi /\
    w' = emit (Print ("Successfully checked out " ++ name)) wi.
Proof.
  intros H Hev. unfold submodule_sparse_checkout in H.
  next_step H p' w0 H0. inversion H0. subst p' w0. clear H0.
  next_step H isd w0 H0. inversion H0. subst isd w0. clear H0.
  next_step H u wA HA. destruct u.
  assert (G : exists eA, grows w wA eA).
  { destruct (isdir (fs w) (OsPath.resolve (cwd w) p)); simpl in HA.
    - inversion HA. exists []. apply grows_refl.
    - apply os_makedirs_ok in HA. destruct HA as [_ ->].
      eexists. apply grows_emit. }
  destruct G as (eA & G).
  next_step H here' w0 H0. inversion H0. subst here' w0. clear H0.
  next_step H git_ wB HB. apply GitInterface_ok in HB.
  destruct HB as (-> & _ & HB). grow G HB.
  next_step H out wC HC. apply git_operation_ok in HC.
  destruct HC as (_ & HC). grow G HC.
  next_step H isf w0 H0. inversion H0. subst isf w0. clear H0.
  destruct (isfile (fs wC) _).
  - exfalso. inversion H. subst w'. simpl in Hev.
    apply app_inj_tail in Hev. destruct Hev as [_ Hev]. discriminate Hev.
  - next_step H git_ wD HD. apply GitInterface_ok in HD.
    destruct HD as (-> & _ & HD). grow G HD.
    next_step H u wE HE. destruct u. apply config_set_value_ok in HE. grow G HE.
    next_step H o wF HF. apply git_operation_ok in HF. destruct HF as [_ HF].
    grow G HF.
    next_step H u wG HG. destruct u.
    next_step H o1 wH HH. next_step H o2 wI HI.
    inversion H. subst w'.
    exists (rstrip out), wF, wG, wH, wI, o1, o2. cbv zeta.
    repeat split; try assumption. apply G.
Qed.

(** ** The optional flag at install *)





End Engine.

(** * Concrete runs *)

Import Toy.

(** C1, on the script as it is: [("I:T")] is a string, so the nested pass
    asks whether the class occurs in ["I:T"].  The empty class does: in the
    manifest found inside [ext/foo], the component [bar] of empty class is
    checked out. *)
Theorem nested_pass_takes_the_empty_class :
  py_in (PStr "") (Str "I:T") start = Ok true start /\
  get inner_manifest "bar" "esmrequired" = PStr "" /\
  outcome (@submodules_install (tool nesting) 2 foo_manifest "/work"
             (Tuple ["T:T"; "I:T"]) start) =
  (None,
   [NewGitInterface "/work";
    GitOperation "/work" (update_init_args (PStr "ext/foo"));
    Print "Recursively checking out submodules of foo /work/ext/foo";
    NewGitModules "/work/ext/foo";
    NewGitInterface "/work/ext/foo";
    GitOperation "/work/ext/foo" (update_init_args (PStr "sub/bar"));
    Print "Successfully checked out bar";
    Print "Successfully checked out foo"]).
Proof. repeat split; vm_compute; reflexivity. Qed.

(** The scenario of the spec: one required component and no filter give
    one full checkout and the line of success that names it. *)
Example one_required_component :
  outcome (@submodules_install (tool plain_tool) 1 foo_manifest "/work"
             (Tuple ["T:T"; "I:T"]) start) =
  (None,
   [NewGitInterface "/work";
    GitOperation "/work" (update_init_args (PStr "ext/foo"));
    Print "Successfully checked out foo"]).
Proof. vm_compute. reflexivity. Qed.

(** The nested pass does pass over the classes [T:T] and [T:F]. *)
Lemma nested_pass_skips_tested_classes :
  py_in (PStr "T:T") (Str "I:T") start = Ok false start /\
  py_in (PStr "T:F") (Str "I:T") start = Ok false start /\
  py_in (PStr "I:T") (Str "I:T") start = Ok true start.
Proof. repeat split. Qed.

(** C2, as the spec has it, fails on the script: [describe] raises in [a],
    status ends there, and [b], which would have had its line, gets no
    turn. *)
Lemma status_stops_at_the_first_failure :
  outcome (@submodules_status (tool failing) pair_manifest "/work" start) =
    (Some (VcsOperationFailed "describe"),
     [NewGitInterface "/work/a"; GitOperation "/work/a" describe_args]) /\
  outcome (@status_of (tool failing) pair_manifest "/work" "b" start) =
    (None,
     [NewGitInterface "/work/b"; GitOperation "/work/b" describe_args;
      Print "Submodule b v1.0 is out of sync with .gitmodules v2.0"]).
Proof. split; vm_compute; reflexivity. Qed.

(** The three loops on two components, with a tool that fails on the first. *)
Lemma failure_ends_every_loop_witness :
  @submodules_status (tool failing) pair_manifest "/work" start =
    Raise (VcsOperationFailed "describe")
      (world_of (@status_of (tool failing) pair_manifest "/work" "a" start)) /\
  @submodules_update (tool failing) pair_manifest "/work" start =
    Raise (VcsOperationFailed "ls-remote")
      (world_of (@update_of (tool failing) pair_manifest "/work" "a" start)) /\
  @submodules_install (tool failing) 1 pair_manifest "/work" (Tuple ["T:T"; "I:T"]) start =
    Raise (VcsOperationFailed "submodule")
      (world_of (@install_of (tool failing) (@submodules_install (tool failing) 0)
                   pair_manifest "/work" (Tuple ["T:T"; "I:T"]) "a" start)).
Proof.
  split; [|split].
  - apply (proj1 (@failure_ends_every_loop (tool failing) pair_manifest "/work" 0
                    (Tuple ["T:T"; "I:T"]) [] ["b"] "a" (VcsOperationFailed "describe")
                    start start _ eq_refl)); reflexivity.
  - apply (proj1 (proj2 (@failure_ends_every_loop (tool failing) pair_manifest "/work" 0
                    (Tuple ["T:T"; "I:T"]) [] ["b"] "a" (VcsOperationFailed "ls-remote")
                    start start _ eq_refl))); reflexivity.
  - apply (proj2 (proj2 (@failure_ends_every_loop (tool failing) pair_manifest "/work" 0
                    (Tuple ["T:T"; "I:T"]) [] ["b"] "a" (VcsOperationFailed "submodule")
                    start start _ eq_refl))); reflexivity.
Defined.

(** The classes [I:F] and the empty class at a top-level install. *)
Lemma install_skips_other_classes_silently_witness :
  @install_of (tool plain_tool) no_install odd_manifest "/work"
    (Tuple ["T:T"; "I:T"]) "c" start = Ok tt start /\
  @install_of (tool plain_tool) no_install odd_manifest "/work"
    (Tuple ["T:T"; "T:F"; "I:T"]) "d" start = Ok tt start.
Proof.
  split.
  - apply (@install_skips_other_classes_silently (tool plain_tool) no_install
             odd_manifest "/work" (Tuple ["T:T"; "I:T"]) "c" "I:F" ["d"] start);
      reflexivity.
  - apply (@install_skips_other_classes_silently (tool plain_tool) no_install
             odd_manifest "/work" (Tuple ["T:T"; "T:F"; "I:T"]) "d" "" [] start);
      reflexivity.
Defined.


(** Status of [a], whose description is its declared tag. *)
Lemma status_classification_witness :
  outcome (@status_of (tool plain_tool) pair_manifest "/work" "a" start) =
  (None, [NewGitInterface "/work/a"; GitOperation "/work/a" describe_args;
          Print "Submodule a at tag v1.0"]).
Proof.
  rewrite (proj1 (@status_classification (tool plain_tool) pair_manifest "/work"
                    "a" "a" ("v1.0" ++ nl) (PStr "v1.0") work work start
                    eq_refl eq_refl eq_refl eq_refl eq_refl)).
  reflexivity.
Defined.

(** Update of [b], which is not checked out, and of [a], which is, while
    the remote of the top-level repository is not the url of [a]. *)
Lemma update_reconciles_witness :
  @update_of (tool plain_tool) pair_manifest "/work" "b" start = Ok tt start /\
  outcome (@update_of (tool plain_tool) pair_manifest "/work" "a" start) =
  (None, [NewGitInterface "/work"; GitOperation "/work" ls_remote_args;
          GitOperation "/work" (remote_add_args "newbranch" (PStr "https://x/a.git"));
          GitOperation "/work" (checkout_args (PStr "v1.0"))]).
Proof.
  split.
  - apply (@update_reconciles (tool plain_tool) pair_manifest "/work" "b" "b" ""
             work work start eq_refl); reflexivity.
  - rewrite (proj2 (proj2 (@update_reconciles (tool plain_tool) pair_manifest "/work"
                             "a" "a" ("https://x/work.git" ++ nl) work work start
                             eq_refl)
                           eq_refl eq_refl eq_refl eq_refl)
                    eq_refl work work "" "" eq_refl eq_refl).
    reflexivity.
Defined.

(** The full checkout of [a]. *)
Lemma checkout_postcondition_witness :
  @submodule_checkout (tool plain_tool) no_install "/work" "a" (PStr "a") start =
  Ok tt (emit (Print "Successfully checked out a") fetched).
Proof.
  apply (@checkout_postcondition (tool plain_tool) no_install "/work" "a" "a"
           "/work" "" start handle fetched fetched); reflexivity.
Defined.

(** [foo] with its sparse file, and [a] without one. *)
Lemma sparse_spec_selects_checkout_witness :
  @install_of (tool plain_tool) no_install sparse_manifest "/work"
    (Tuple ["T:T"; "I:T"]) "foo" start = first_run /\
  @install_of (tool plain_tool) no_install pair_manifest "/work"
    (Tuple ["T:T"; "I:T"]) "a" start =
  @submodule_checkout (tool plain_tool) no_install "/work" "a" (PStr "a") start.
Proof.
  split.
  - apply (@sparse_spec_selects_checkout (tool plain_tool) no_install sparse_manifest
             "/work" "foo" (Tuple ["T:T"; "I:T"]) start); reflexivity.
  - apply (@sparse_spec_selects_checkout (tool plain_tool) no_install pair_manifest
             "/work" "a" (Tuple ["T:T"; "I:T"]) start); reflexivity.
Defined.



(** * More of the script *)

(** ** What a run may add to the log *)

Section Confined.

Context {ext : External}.
Variable P : event -> bool.

Lemma confined_ret {A} (a : A) : confined P (ret a).
Proof. intro w. split; [reflexivity|]. exists []. now rewrite app_nil_r. Qed.

Lemma confined_raise {A} (e : exn) : confined P (@raise A e).
Proof. intro w. split; [reflexivity|]. exists []. now rewrite app_nil_r. Qed.

Lemma confined_bind {A B} (c : M A) (k : A -> M B) :
  confined P c -> (forall a, confined P (k a)) -> confined P (bind c k).
Proof.
  intros Hc Hk w. destruct (Hc w) as (C1 & e1 & E1 & F1). unfold bind.
  destruct (c w) as [a w1|x w1]; simpl in *.
  - destruct (Hk a w1) as (C2 & e2 & E2 & F2). split; [congruence|].
    exists (e1 ++ e2)%list. rewrite E2, E1, app_assoc, forallb_app, F1, F2. now split.
  - split; [assumption|]. now exists e1.
Qed.

Lemma confined_emit {A} (a : A) (e : event) :
  P e = true -> confined P (fun w => Ok a (emit e w)).
Proof.
  intros He w. split; [reflexivity|]. exists [e]. simpl. now rewrite He.
Qed.

Lemma confined_read {A} (f : World -> A) : confined P (fun w => Ok (f w) w).
Proof. intro w. split; [reflexivity|]. exists []. now rewrite app_nil_r. Qed.

Lemma confined_as_str (v : pyval) : confined P (as_str v).
Proof. destruct v; [apply confined_raise | apply confined_ret]. Qed.

Lemma confined_returned {A} (r : exn + A) : confined P (returned r).
Proof. destruct r; [apply confined_raise | apply confined_ret]. Qed.

Lemma confined_lift_tool {A} (e : event) (f : string -> FS -> FS * (exn + A)) :
  P e = true -> confined P (lift_tool e f).
Proof.
  intros He w. unfold lift_tool.
  destruct (f (cwd w) (fs w)) as [t [x|a]]; simpl;
    (split; [reflexivity|]; exists [e]; simpl; now rewrite He).
Qed.

Lemma confined_GitInterface (repo : string) :
  P (NewGitInterface repo) = true -> confined P (GitInterface repo).
Proof.
  intro H. unfold GitInterface. apply confined_bind.
  - now apply confined_lift_tool.
  - intro. apply confined_ret.
Qed.

Lemma confined_for_each {A} (l : list A) (body : A -> M unit) :
  (forall x, confined P (body x)) -> confined P (for_each l body).
Proof.
  intro H. induction l as [|x l IH]; simpl.
  - apply confined_ret.
  - apply confined_bind; [apply H | intro; exact IH].
Qed.

(** The body of a [pushd] runs elsewhere; the process comes back. *)
Lemma confined_pushd {A} (d : string) (body : M A) :
  confined P body -> confined P (pushd d body).
Proof.
  intros H w. unfold pushd.
  destruct (fs w (OsPath.resolve (cwd w) d)) as [[|c]|]; simpl.
  - destruct (H (set_cwd (OsPath.render (OsPath.resolve (cwd w) d)) w))
      as (_ & evs & E & F).
    destruct (body _) as [a w1|x w1]; simpl in *; (split; [reflexivity|]);
      now exists evs.
  - split; [reflexivity|]. exists []. now rewrite app_nil_r.
  - split; [reflexivity|]. exists []. now rewrite app_nil_r.
Qed.

Lemma confined_os_makedirs (p : string) :
  (forall k, P (Makedirs k) = true) -> confined P (os_makedirs p).
Proof.
  intros H w. unfold os_makedirs.
  destruct (exists_ _ _); [|destruct (blocked _ _ _)]; simpl;
    (split; [reflexivity|]);
    try (exists []; now rewrite app_nil_r).
  eexists [_]. simpl. now rewrite H.
Qed.

Lemma confined_shutil_move (src dst : string) :
  (forall s d, P (Moved s d) = true) -> confined P (shutil_move src dst).
Proof.
  intros H w. unfold shutil_move. cbv zeta.
  repeat match goal with
         | |- context [if ?b then _ else _] => destruct b
         | |- context [match fs w ?k with _ => _ end] => destruct (fs w k) as [[|?]|]
         end; simpl; (split; [reflexivity|]);
    try (exists []; now rewrite app_nil_r);
    (eexists [_]; simpl; now rewrite H).
Qed.

Lemma confined_shutil_copy (src dst : string) :
  (forall s d, P (Copied s d) = true) -> confined P (shutil_copy src dst).
Proof.
  intros H w. unfold shutil_copy. cbv zeta.
  repeat match goal with
         | |- context [match fs w ?k with _ => _ end] => destruct (fs w k) as [[|?]|]
         | |- context [if ?b then _ else _] => destruct b
         end; simpl; (split; [reflexivity|]);
    try (exists []; now rewrite app_nil_r);
    (eexists [_]; simpl; now rewrite H).
Qed.

Lemma confined_write_file (p content : string) :
  (forall k c, P (Wrote k c) = true) -> confined P (write_file p content).
Proof.
  intros H w. unfold write_file. cbv zeta.
  repeat match goal with
         | |- context [if ?b then _ else _] => destruct b
         end; simpl; (split; [reflexivity|]);
    try (exists []; now rewrite app_nil_r);
    (eexists [_]; simpl; now rewrite H).
Qed.

End Confined.

Section Traces.

Context {ext : External}.

Lemma confined_git_operation (P : event -> bool) (git_ : string) (args : list pyval) :
  P (GitOperation git_ args) = true -> confined P (git_operation git_ args).
Proof. intro H. now apply confined_lift_tool. Qed.

Lemma status_confined (gitmodules : GitModules) (root_dir : string) :
  confined asks_or_prints (submodules_status gitmodules root_dir).
Proof.
  unfold submodules_status. apply confined_for_each. intro name.
  unfold status_of.
  apply confined_bind; [apply confined_returned | intro tag].
  apply confined_bind; [apply confined_as_str | intro p].
  apply confined_pushd.
  apply confined_bind; [now apply confined_GitInterface | intro git_].
  apply confined_bind; [now apply confined_git_operation | intro out].
  now apply (confined_emit asks_or_prints tt).
Qed.

Lemma update_confined (gitmodules : GitModules) (root_dir : string) :
  confined asks_tool (submodules_update gitmodules root_dir).
Proof.
  unfold submodules_update. apply confined_for_each. intro name.
  unfold update_of.
  apply confined_bind; [apply confined_as_str | intro p].
  apply confined_bind; [apply (confined_read asks_tool) | intros []].
  - apply confined_pushd.
    apply confined_bind; [now apply confined_GitInterface | intro git_].
    apply confined_bind; [now apply confined_git_operation | intro out].
    destruct (negb _); [|apply confined_ret].
    apply confined_bind; [now apply confined_git_operation | intro].
    apply confined_bind; [now apply confined_git_operation | intro].
    apply confined_ret.
  - apply confined_ret.
Qed.

(** Status adds to the log requests to the tool and printed lines, and
    nothing else, whether it returns or raises: it makes no directory,
    moves, copies and writes no file; what changes in the file tree during
    status, the tool changed. *)
Theorem status_asks_and_prints
    (gitmodules : GitModules) (root_dir : string) (w : World) :
  exists evs,
    events (world_of (submodules_status gitmodules root_dir w)) = (events w ++ evs)%list /\
    forallb asks_or_prints evs = true.
Proof. apply status_confined. Qed.

(** Update adds to the log requests to the tool only, whether it returns
    or raises: it prints nothing, whatever it finds and whatever it has
    the tool change, and writes nothing to the file tree itself. *)
Theorem update_only_asks
    (gitmodules : GitModules) (root_dir : string) (w : World) :
  exists evs,
    events (world_of (submodules_update gitmodules root_dir w)) = (events w ++ evs)%list /\
    forallb asks_tool evs = true /\ printed evs = [].
Proof.
  destruct (update_confined gitmodules root_dir w) as (_ & evs & E & F).
  exists evs. repeat split; try assumption.
  clear E. induction evs as [|e evs IH]; [reflexivity|].
  simpl in F. apply andb_true_iff in F. destruct F as [Fe F].
  destruct e; try discriminate Fe; simpl; now apply IH.
Qed.

Lemma confined_relocate_metadata
    (name p : string) (sparsefile : pyval) (topgit gitsparse : string) :
  confined no_full_checkout (relocate_metadata name p sparsefile topgit gitsparse).
Proof.
  unfold relocate_metadata.
  apply confined_bind; [apply (confined_read no_full_checkout) | intro isd].
  apply confined_bind.
  { destruct (negb isd); [now apply confined_os_makedirs | apply confined_ret]. }
  intro. apply confined_bind; [now apply confined_shutil_move | intro].
  apply confined_bind; [apply confined_as_str | intro sf].
  apply confined_bind; [now apply confined_shutil_copy | intro].
  apply confined_bind; [apply (confined_read no_full_checkout) | intro rel].
  now apply confined_write_file.
Qed.

Lemma confined_sparse_checkout (name : string) (url path sparsefile tag : pyval) :
  confined no_full_checkout (submodule_sparse_checkout name url path sparsefile tag).
Proof.
  unfold submodule_sparse_checkout.
  apply confined_bind; [apply confined_as_str | intro p].
  apply confined_bind; [apply (confined_read no_full_checkout) | intro isd].
  apply confined_bind.
  { destruct (negb isd); [now apply confined_os_makedirs | apply confined_ret]. }
  intro. apply confined_bind; [apply (confined_read no_full_checkout) | intro here].
  apply confined_bind; [now apply confined_GitInterface | intro git_].
  apply confined_bind; [now apply confined_git_operation | intro out].
  apply confined_bind; [apply (confined_read no_full_checkout) | intros []].
  - now apply (confined_emit no_full_checkout tt).
  - apply confined_bind; [now apply confined_GitInterface | intro sprepo].
    apply confined_bind; [now apply confined_lift_tool | intro].
    apply confined_bind; [now apply confined_git_operation | intro].
    apply confined_bind; [apply confined_relocate_metadata | intro].
    apply confined_bind; [now apply confined_git_operation | intro].
    apply confined_bind; [now apply confined_git_operation | intro].
    now apply (confined_emit no_full_checkout tt).
Qed.

Lemma confined_for_each_in {A} (P : event -> bool) (l : list A) (body : A -> M unit) :
  (forall x, In x l -> confined P (body x)) -> confined P (for_each l body).
Proof.
  induction l as [|x l IH]; intro H; simpl.
  - apply confined_ret.
  - apply confined_bind; [apply H; now left | intro; apply IH].
    intros y Hy. apply H. now right.
Qed.

(** Components checked out sparsely are not searched for manifests of
    their own.  When every component of the manifest declares a sparse
    file, install, whether it returns or raises, asks the tool for no
    [submodule] operation and reads no manifest, whatever the tool leaves
    in the directories of the components: all that it logs are the steps
    of sparse checkouts and the notices of skipped components. *)
Theorem sparse_install_reads_no_manifest
    (depth : nat) (gitmodules : GitModules) (root_dir : string)
    (requiredlist : container) (w : World) :
  (forall name, In name (sections gitmodules) ->
     truthy (get gitmodules name "esmsparse") = true) ->
  exists evs,
    events (world_of (submodules_install depth gitmodules root_dir requiredlist w))
      = (events w ++ evs)%list /\
    forallb no_full_checkout evs = true.
Proof.
  intro Hsparse.
  assert (H : confined no_full_checkout
                (submodules_install depth gitmodules root_dir requiredlist)).
  { destruct depth as [|depth]; simpl; [apply confined_raise|].
    apply confined_for_each_in. intros name Hin. unfold install_of.
    rewrite (Hsparse name Hin).
    apply confined_bind.
    { unfold py_in. destruct requiredlist; [apply confined_ret|].
      destruct (get gitmodules name "esmrequired");
        [apply confined_raise | apply confined_ret]. }
    intros []; simpl; [apply confined_sparse_checkout|].
    apply confined_bind.
    { unfold str_in_val. destruct (get gitmodules name "esmrequired");
        [apply confined_raise | apply confined_ret]. }
    intros []; [now apply (confined_emit no_full_checkout tt) | apply confined_ret]. }
  destruct (H w) as (_ & evs & E & F). now exists evs.
Qed.

End Traces.

(** ** Whole loops *)

Ltac step_in H x w Hx :=
  apply bind_ok in H; destruct H as (x & w & Hx & H).

Section WholeLoops.

Context {ext : External}.

Lemma printed_app (a b : list event) :
  printed (a ++ b) = (printed a ++ printed b)%list.
Proof.
  induction a as [|e a IH]; [reflexivity|].
  destruct e; simpl; now rewrite IH.
Qed.

Lemma pushd_ok {A} (d : string) (body : M A) (w w' : World) (a : A) :
  pushd d body w = Ok a w' ->
  exists w1,
    body (set_cwd (OsPath.render (OsPath.resolve (cwd w) d)) w) = Ok a w1 /\
    w' = set_cwd (cwd w) w1.
Proof.
  unfold pushd. destruct (fs w _) as [[|c]|]; try discriminate.
  destruct (body _) as [a1 w1|e w1]; simpl; [|discriminate].
  intro H. inversion H. now exists w1.
Qed.

(** A turn of status that returns asked [describe] once and printed the
    line of the component. *)
Lemma status_of_ok (gitmodules : GitModules) (root_dir name : string) (w w' : World) :
  status_of gitmodules root_dir name w = Ok tt w' ->
  exists tag p out,
    git gitmodules name "esmtag" = inr tag /\
    get gitmodules name "path" = PStr p /\
    events w' = (events w ++
                 [NewGitInterface (OsPath.join root_dir p);
                  GitOperation (OsPath.join root_dir p) describe_args;
                  Print (status_line name tag (rstrip out))])%list.
Proof.
  intro H. unfold status_of in H.
  step_in H tag w0 H0.
  destruct (git gitmodules name "esmtag") as [e|tag'] eqn:Etag; [discriminate H0|].
  inversion H0. subst tag' w0. clear H0.
  step_in H p w0 H0.
  destruct (get gitmodules name "path") as [|p'] eqn:Epath; [discriminate H0|].
  inversion H0. subst p' w0. clear H0.
  apply pushd_ok in H. destruct H as (w1 & H & ->).
  step_in H git_ wA HA. apply GitInterface_ok in HA. destruct HA as (-> & _ & GA).
  step_in H out wB HB. apply git_operation_ok in HB. destruct HB as (_ & GB).
  inversion H. subst w1. clear H.
  exists tag, p, out. repeat split. simpl.
  destruct GA as [_ EA], GB as [_ EB]. rewrite EB, EA. simpl.
  now rewrite <- !app_assoc.
Qed.

(** Status that returns printed one line for each component of the
    manifest, in the order of the manifest, each the line of that
    component for its declared tag and for some description. *)
Theorem status_prints_one_line_each
    (gitmodules : GitModules) (root_dir : string) (w w' : World) :
  submodules_status gitmodules root_dir w = Ok tt w' ->
  exists evs,
    events w' = (events w ++ evs)%list /\
    Forall2 (fun name line =>
               exists tag atag, git gitmodules name "esmtag" = inr tag /\
                                line = status_line name tag atag)
            (sections gitmodules) (printed evs).
Proof.
  unfold submodules_status. generalize (sections gitmodules) as l.
  intro l. revert w. induction l as [|name l IH]; intros w H; simpl in H.
  - inversion H. exists []. split; [now rewrite app_nil_r | constructor].
  - step_in H u w1 H1. destruct u.
    apply status_of_ok in H1. destruct H1 as (tag & p & out & Htag & _ & E1).
    destruct (IH _ H) as (evs & E & F).
    eexists. split.
    + rewrite E, E1, <- app_assoc. reflexivity.
    + rewrite printed_app. simpl. constructor; [|exact F].
      now exists tag, (rstrip out).
Qed.

Lemma world_eta (w : World) : mkWorld (fs w) (cwd w) (events w) = w.
Proof. now destruct w. Qed.

(** Install of a manifest none of whose classes is in the accepted tuple
    asks nothing of the tool and leaves the file tree alone: it prints the
    notice for each component whose class names [T:F], in the order of the
    manifest, and returns. *)
Theorem install_of_unaccepted_manifest
    (depth : nat) (gitmodules : GitModules) (root_dir : string)
    (accepted : list string) (w : World) :
  (forall name, In name (sections gitmodules) ->
     exists s, get gitmodules name "esmrequired" = PStr s /\
               tuple_in (PStr s) accepted = false) ->
  submodules_install (S depth) gitmodules root_dir (Tuple accepted) w =
    Ok tt (mkWorld (fs w) (cwd w)
             (events w ++
              map (fun name => Print ("Skipping optional component " ++ name))
                (filter (mentions_optional gitmodules) (sections gitmodules)))%list).
Proof.
  simpl. generalize (sections gitmodules) as l. intro l. revert w.
  induction l as [|name l IH]; intros w H.
  - simpl. unfold ret. now rewrite app_nil_r, world_eta.
  - destruct (H name (or_introl eq_refl)) as (s & Hs & Hout).
    assert (Hturn : install_of (submodules_install depth) gitmodules root_dir
                      (Tuple accepted) name w =
                    Ok tt (if str_in "T:F" s
                           then emit (Print ("Skipping optional component " ++ name)) w
                           else w)).
    { unfold install_of. rewrite Hs. unfold bind at 1. simpl. rewrite Hout. simpl.
      unfold bind, str_in_val, ret. now destruct (str_in "T:F" s). }
    rewrite (for_each_cons_ok _ _ _ _ _ Hturn).
    rewrite IH by (intros n Hn; apply H; now right).
    simpl filter. unfold mentions_optional at 2. rewrite Hs.
    destruct (str_in "T:F" s); simpl; [|reflexivity].
    now rewrite <- app_assoc.
Qed.

(** Update of a manifest none of whose components holds a [.git] returns
    with the world as it was: nothing is asked of the tool, nothing is
    printed, nothing is made. *)
Theorem update_of_unchecked_manifest
    (gitmodules : GitModules) (root_dir : string) (w : World) :
  (forall name, In name (sections gitmodules) ->
     exists p, get gitmodules name "path" = PStr p /\
               exists_ (fs w) (OsPath.resolve (cwd w) (OsPath.join p ".git")) = false) ->
  submodules_update gitmodules root_dir w = Ok tt w.
Proof.
  unfold submodules_update. generalize (sections gitmodules) as l. intro l.
  induction l as [|name l IH]; intro H; [reflexivity|].
  destruct (H name (or_introl eq_refl)) as (p & Hp & Hno).
  assert (Hturn : update_of gitmodules root_dir name w = Ok tt w).
  { unfold update_of. rewrite Hp. unfold bind at 1. simpl.
    unfold bind, os_path_exists. now rewrite Hno. }
  rewrite (for_each_cons_ok _ _ _ _ _ Hturn).
  apply IH. intros n Hn. apply H. now right.
Qed.

End WholeLoops.

(** ** What an operation reads of the manifest *)

Section Reads.

Context {ext : External}.

Lemma for_each_ext {A} (l : list A) (f g : A -> M unit) (w : World) :
  (forall x w', In x l -> f x w' = g x w') ->
  for_each l f w = for_each l g w.
Proof.
  revert w. induction l as [|x l IH]; intros w H; [reflexivity|].
  simpl. unfold bind. rewrite (H x w (or_introl eq_refl)).
  destruct (g x w) as [[] w1|e w1]; [|reflexivity].
  apply IH. intros y w' Hy. apply H. now right.
Qed.

(** Status and update read the sections, the path and the declared tag
    (update the url too) and nothing else of a manifest: two manifests that
    agree on these, whatever their requirement classes and sparse files,
    get the same status and the same update. *)
Theorem status_and_update_ignore_classes
    (gm1 gm2 : GitModules) (root_dir : string) (w : World) :
  sections gm1 = sections gm2 ->
  (forall name, get gm1 name "path" = get gm2 name "path") ->
  (forall name, get gm1 name "url" = get gm2 name "url") ->
  (forall name, get gm1 name "esmtag" = get gm2 name "esmtag") ->
  (forall name, git gm1 name "esmtag" = git gm2 name "esmtag") ->
  submodules_status gm1 root_dir w = submodules_status gm2 root_dir w /\
  submodules_update gm1 root_dir w = submodules_update gm2 root_dir w.
Proof.
  intros Hs Hpath Hurl Htag Hgit. split.
  - unfold submodules_status. rewrite Hs. apply for_each_ext.
    intros name w' _. unfold status_of. now rewrite Hpath, Hgit.
  - unfold submodules_update. rewrite Hs. apply for_each_ext.
    intros name w' _. unfold update_of. now rewrite Hpath, Hurl, Htag.
Qed.

(** Install reads the url and the declared tag of a component only for a
    sparse checkout: two manifests that agree on sections, paths, classes
    and sparse files, and on url and tag where a sparse file is set, are
    installed alike.  The full checkout of a component is the same
    whatever url and tag the manifest declares for it. *)
Theorem install_reads_tag_for_sparse_only
    (depth : nat) (gm1 gm2 : GitModules) (root_dir : string)
    (requiredlist : container) (w : World) :
  sections gm1 = sections gm2 ->
  (forall name, get gm1 name "path" = get gm2 name "path") ->
  (forall name, get gm1 name "esmrequired" = get gm2 name "esmrequired") ->
  (forall name, get gm1 name "esmsparse" = get gm2 name "esmsparse") ->
  (forall name, truthy (get gm1 name "esmsparse") = true ->
     get gm1 name "url" = get gm2 name "url" /\
     get gm1 name "esmtag" = get gm2 name "esmtag") ->
  submodules_install depth gm1 root_dir requiredlist w =
  submodules_install depth gm2 root_dir requiredlist w.
Proof.
  intros Hs Hpath Hreq Hsparse Hrest.
  destruct depth as [|depth]; [reflexivity|]. simpl. rewrite Hs.
  apply for_each_ext. intros name w' _. unfold install_of.
  rewrite <- Hreq, <- Hsparse, <- Hpath.
  destruct (truthy (get gm1 name "esmsparse")) eqn:E; [|reflexivity].
  destruct (Hrest name E) as [-> ->]. reflexivity.
Qed.

(** Install of a manifest whose components all declare a sparse file does
    not read [root_dir]: the directory given with [--path] has no part in
    a sparse checkout, which works from the directory the process is in
    (nor does the depth of nesting matter, no manifest being nested). *)
Theorem sparse_install_ignores_root_dir
    (depth1 depth2 : nat) (gitmodules : GitModules) (root1 root2 : string)
    (requiredlist : container) (w : World) :
  (forall name, In name (sections gitmodules) ->
     truthy (get gitmodules name "esmsparse") = true) ->
  submodules_install (S depth1) gitmodules root1 requiredlist w =
  submodules_install (S depth2) gitmodules root2 requiredlist w.
Proof.
  intro H. simpl. apply for_each_ext. intros name w' Hin.
  unfold install_of. now rewrite (H name Hin).
Qed.

(** ** The main function *)

(** Without [--version] the main function announces the action when
    verbose, reads the manifest with the filters of the command line, and
    runs one operation on it: status under [--status], whatever
    [--update] and [--optional] say; update under [--update] alone;
    install otherwise, with [T:T] and [I:T], and [T:F] under [--optional].
    No flags lead to the error of an unrecognized action.  When the
    manifest cannot be read, that exception ends the run before any
    operation. *)
Theorem main_func_dispatch
    (depth : nat) (options : Options.t) (w : World) :
  let action :=
    if Options.status options then "status"
    else if Options.update options then "update" else "install" in
  let announced :=
    if (0 <? Options.verbose options)%nat
    then emit (Print ("action is " ++ action)) w else w in
  let read :=
    GitModules_new (Options.path options) (Options.gitmodules options)
      (Some (Options.components options)) (Options.exclude options) announced in
  Options.version options = false ->
  (forall gitmodules w1, read = Ok gitmodules w1 ->
   _main_func depth options w =
     if Options.status options
     then submodules_status gitmodules (Options.path options) w1
     else if Options.update options
     then submodules_update gitmodules (Options.path options) w1
     else submodules_install depth gitmodules (Options.path options)
            (if Options.optional options
             then Tuple ["T:T"; "T:F"; "I:T"] else Tuple ["T:T"; "I:T"]) w1) /\
  (forall e w1, read = Raise e w1 -> _main_func depth options w = Raise e w1).
Proof.
  intros action announced read Hv.
  assert (Hshape : _main_func depth options w =
    match read with
    | Ok gitmodules w1 =>
        if action =? "update" then submodules_update gitmodules (Options.path options) w1
        else if action =? "install" then
          submodules_install depth gitmodules (Options.path options)
            (if Options.optional options
             then Tuple ["T:T"; "T:F"; "I:T"] else Tuple ["T:T"; "I:T"]) w1
        else if action =? "status" then
          submodules_status gitmodules (Options.path options) w1
        else fatal_error ("unrecognized action request " ++ action) w1
    | Raise e w1 => Raise e w1
    end).
  { unfold _main_func, commandline_arguments. rewrite Hv.
    unfold bind at 1. simpl. unfold bind at 1.
    subst read announced action.
    destruct (0 <? Options.verbose options)%nat; simpl; unfold bind;
      (match goal with |- match ?r with _ => _ end = _ => destruct r end;
       [|reflexivity]);
      (destruct (Options.status options); [reflexivity|]);
      destruct (Options.update options); reflexivity. }
  split.
  - intros gitmodules w1 Hread. rewrite Hshape, Hread. subst action.
    destruct (Options.status options); [reflexivity|].
    destruct (Options.update options); reflexivity.
  - intros e w1 Hread. now rewrite Hshape, Hread.
Qed.

(** Under [--version] the main function prints the version and ends with
    exit status 0, whatever the other flags: the manifest is not read and
    nothing is asked of the tool.  When the version cannot be obtained,
    the exception of that ends the run, nothing being printed. *)
Theorem version_ends_the_run
    (depth : nat) (options : Options.t) (w : World) :
  Options.version options = true ->
  _main_func depth options w =
    match version_info with
    | inr line => Raise (SystemExit 0) (emit (Print line) w)
    | inl e => Raise e w
    end.
Proof.
  intro Hv. unfold _main_func, commandline_arguments. rewrite Hv.
  unfold bind at 1. unfold bind at 1.
  destruct version_info as [e|line]; reflexivity.
Qed.

End Reads.

(** ** Sparse checkout, step by step *)

Ltac grow_by G Hstep :=
  let G' := fresh "G" in
  pose proof (grows_trans _ _ _ _ _ G Hstep) as G'; clear G; rename G' into G.

Section SparseSteps.

Context {ext : External}.

Lemma shutil_move_source (src dst : string) (w w' : World) :
  shutil_move src dst w = Ok tt w' ->
  exists d, grows w w' [Moved (OsPath.resolve (cwd w) src) d].
Proof.
  unfold shutil_move. cbv zeta.
  set (s := OsPath.resolve (cwd w) src). set (d := OsPath.resolve (cwd w) dst).
  set (rd := if isdir (fs w) d then _ else d).
  destruct (isdir (fs w) d && key_eqb s d).
  { intro H. inversion H. exists d. now split. }
  destruct (isdir (fs w) d && exists_ (fs w) rd); [discriminate|].
  destruct (fs w s) as [[|c]|]; [| |discriminate].
  - destruct (below s rd); [discriminate|].
    destruct (exists_ (fs w) rd); [discriminate|].
    destruct (blocked (fs w) [] (parent rd)); [discriminate|].
    intro H. inversion H. exists rd. now split.
  - destruct (isdir (fs w) (parent rd)); [|discriminate].
    intro H. inversion H. exists rd. now split.
Qed.

Lemma shutil_copy_source (src dst : string) (w w' : World) :
  shutil_copy src dst w = Ok tt w' ->
  exists d, grows w w' [Copied (OsPath.resolve (cwd w) src) d].
Proof.
  unfold shutil_copy. cbv zeta.
  set (s := OsPath.resolve (cwd w) src).
  set (d := if isdir (fs w) _ then _ else _).
  destruct (fs w s) as [[|c]|]; [| |discriminate].
  - destruct (key_eqb s d); discriminate.
  - destruct (key_eqb s d); [discriminate|].
    destruct (isdir (fs w) d); [discriminate|].
    destruct (isdir (fs w) (parent d)); [|discriminate].
    intro H. inversion H. exists d. now split.
Qed.

(** The order of the relocation: the store if it is not there, the move of
    [.git], the copy of the sparse file, the pointer. *)
Lemma relocate_metadata_trace
    (name p sf topgit gitsparse : string) (wa wb : World) :
  let K_git := OsPath.resolve (cwd wa) (OsPath.join p ".git") in
  let K_top := OsPath.resolve (cwd wa) topgit in
  let K_spec := OsPath.resolve (cwd wa) (OsPath.join p sf) in
  let pointer := "gitdir: " ++ OsPath.relpath (cwd wa) (OsPath.join topgit name) p in
  relocate_metadata name p (PStr sf) topgit gitsparse wa = Ok tt wb ->
  exists made d0 d,
    (made = [] \/ made = [Makedirs K_top]) /\
    grows wa wb (made ++ [Moved K_git d0; Copied K_spec d; Wrote K_git pointer])%list.
Proof.
  intros K_git K_top K_spec pointer H. unfold relocate_metadata in H.
  step_in H isd w0 H0. inversion H0. subst isd w0. clear H0.
  step_in H u w1 H1. destruct u.
  assert (G : exists made, (made = [] \/ made = [Makedirs K_top]) /\ grows wa w1 made).
  { fold K_top in H1. destruct (isdir (fs wa) K_top); simpl in H1.
    - inversion H1. exists []. split; [now left | apply grows_refl].
    - apply os_makedirs_ok in H1. cbv zeta in H1. fold K_top in H1.
      destruct H1 as [_ ->]. exists [Makedirs K_top]. split; [now right|].
      apply grows_emit. }
  destruct G as (made & Hmade & G).
  assert (E1 : cwd w1 = cwd wa) by apply G.
  step_in H u w2 H2. destruct u.
  apply shutil_move_source in H2. destruct H2 as (d0 & H2).
  rewrite E1 in H2. fold K_git in H2. grow_by G H2.
  assert (E2 : cwd w2 = cwd wa) by apply G.
  step_in H sf' w3 H3. inversion H3. subst sf' w3. clear H3.
  step_in H u w4 H4. destruct u.
  apply shutil_copy_source in H4. destruct H4 as (d & H4).
  rewrite E2 in H4. fold K_spec in H4. grow_by G H4.
  assert (E4 : cwd w4 = cwd wa) by apply G.
  step_in H rel w5 H5. inversion H5. subst rel w5. clear H5.
  rewrite E4 in H. fold pointer in H.
  apply write_file_ok in H. cbv zeta in H. rewrite E4 in H. fold K_git in H.
  destruct H as [_ ->].
  pose proof (grows_emit w4 (put (fs w4) K_git (File pointer)) (Wrote K_git pointer))
    as H5.
  grow_by G H5. exists made, d0, d. split; [exact Hmade|].
  rewrite <- !app_assoc in G. exact G.
Qed.

(** A sparse checkout that returns did one of two things, in this order.
    Either it made the directory of the component if it was not there,
    asked for the top level, and logged that the component is already
    initialized.  Or it went on: it opened the component, set
    [core.sparseCheckout], added the remote [origin], relocated the
    metadata (store, move, copy, pointer), and only then fetched at depth
    1 with tags, checked out the tag and printed the line of success. *)
Theorem sparse_checkout_protocol
    (name p sf : string) (url tag : pyval) (w w' : World) :
  submodule_sparse_checkout name url (PStr p) (PStr sf) tag w = Ok tt w' ->
  exists (out : string) (made1 : list event),
    let here := cwd w in
    let top := rstrip out in
    let topgit := OsPath.join (OsPath.join top ".git") "modules" in
    let sprepo := OsPath.join top p in
    let K_dir := OsPath.resolve here p in
    let K_git := OsPath.resolve here (OsPath.join p ".git") in
    let K_top := OsPath.resolve here topgit in
    let K_spec := OsPath.resolve here (OsPath.join p sf) in
    let pointer := "gitdir: " ++ OsPath.relpath here (OsPath.join topgit name) p in
    (made1 = [] \/ made1 = [Makedirs K_dir]) /\
    (events w' =
       (events w ++ made1 ++
        [NewGitInterface here; GitOperation here rev_parse_args;
         LogWarning (already_initialized name)])%list
     \/
     exists (made2 : list event) (d0 d : key),
       (made2 = [] \/ made2 = [Makedirs K_top]) /\
       events w' =
         (events w ++ made1 ++
          [NewGitInterface here; GitOperation here rev_parse_args;
           NewGitInterface sprepo;
           ConfigSetValue sprepo "core" "sparseCheckout" "true";
           GitOperation sprepo (remote_add_args "origin" url)] ++
          made2 ++
          [Moved K_git d0; Copied K_spec d; Wrote K_git pointer;
           GitOperation sprepo fetch_args;
           GitOperation sprepo (checkout_args tag);
           Print ("Successfully checked out " ++ name)])%list).
Proof.
  intro H. unfold submodule_sparse_checkout in H.
  step_in H p' w0 H0. inversion H0. subst p' w0. clear H0.
  step_in H isd w0 H0. inversion H0. subst isd w0. clear H0.
  step_in H u wA HA. destruct u.
  assert (G : exists made1,
            (made1 = [] \/ made1 = [Makedirs (OsPath.resolve (cwd w) p)]) /\
            grows w wA made1).
  { destruct (isdir (fs w) (OsPath.resolve (cwd w) p)); simpl in HA.
    - inversion HA. exists []. split; [now left | apply grows_refl].
    - apply os_makedirs_ok in HA. destruct HA as [_ ->].
      eexists. split; [now right | apply grows_emit]. }
  destruct G as (made1 & Hmade1 & G).
  step_in H here' w0 H0. inversion H0. subst here' w0. clear H0.
  assert (EA : cwd wA = cwd w) by apply G. rewrite EA in H.
  step_in H git_ wB HB. apply GitInterface_ok in HB.
  destruct HB as (-> & _ & HB). grow_by G HB.
  step_in H out wC HC. apply git_operation_ok in HC.
  destruct HC as (_ & HC). grow_by G HC.
  step_in H isf w0 H0. inversion H0. subst isf w0. clear H0.
  exists out, made1. cbv zeta. split; [exact Hmade1|].
  destruct (isfile (fs wC) _).
  - left. inversion H. simpl. destruct G as [_ ->].
    now rewrite <- !app_assoc.
  - right.
    step_in H git_ wD HD. apply GitInterface_ok in HD.
    destruct HD as (-> & _ & HD). grow_by G HD.
    step_in H u wE HE. destruct u. apply config_set_value_ok in HE. grow_by G HE.
    step_in H o wF HF. apply git_operation_ok in HF. destruct HF as [_ HF].
    grow_by G HF.
    assert (EF : cwd wF = cwd w) by apply G.
    step_in H u wG HG. destruct u.
    apply relocate_metadata_trace in HG. cbv zeta in HG. rewrite EF in HG.
    destruct HG as (made2 & d0 & d & Hmade2 & HG). grow_by G HG.
    step_in H o1 wH HH. apply git_operation_ok in HH. destruct HH as [_ HH].
    grow_by G HH.
    step_in H o2 wI HI. apply git_operation_ok in HI. destruct HI as [_ HI].
    grow_by G HI.
    inversion H. simpl. exists made2, d0, d. split; [exact Hmade2|].
    destruct G as [_ ->]. now rewrite <- !app_assoc.
Qed.

End SparseSteps.

(** ** Sparse checkout at the edges *)

Section SparseEdges.

Context {ext : External}.

#[local] Arguments blocked : simpl never.
#[local] Arguments with_dirs : simpl never.

Lemma rstrip_sep_git (a : string) : rstrip_sep (a ++ ".git") = a ++ ".git".
Proof.
  induction a as [|c a IH]; [reflexivity|].
  change (rstrip_sep (String c (a ++ ".git")) = String c (a ++ ".git")).
  cbn [rstrip_sep]. rewrite IH. now destruct a.
Qed.

Lemma last_split_sep (a b : string) :
  OsPath.split b = [b] -> last (OsPath.split (a ++ String OsPath.sep b)) "" = b.
Proof.
  intro Hb. rewrite OsPathFacts.split_app_sep, Hb. apply last_last.
Qed.

(** The last name of [join p ".git"] is [.git]. *)
Lemma basename_of_git (p : string) :
  OsPath.basename (rstrip_sep (OsPath.join p ".git")) = ".git".
Proof.
  unfold OsPath.join. change (OsPath.startswith_sep ".git") with false. cbv iota.
  destruct (p =? "") eqn:Ep.
  - apply String.eqb_eq in Ep. subst. reflexivity.
  - cbn [orb]. destruct (OsPath.endswith_sep p) eqn:Ee.
    + destruct (OsPathFacts.endswith_sep_inv p Ee) as [a ->].
      rewrite rstrip_sep_git. rewrite OsPathFacts.append_assoc.
      now apply last_split_sep.
    + change (p ++ String OsPath.sep ".git") with (p ++ (String OsPath.sep "" ++ ".git")).
      rewrite <- OsPathFacts.append_assoc, rstrip_sep_git, OsPathFacts.append_assoc.
      now apply last_split_sep.
Qed.

Lemma strip_sibling (a r : key) (x y : string) :
  (x =? y) = false -> strip (a ++ [x])%list (a ++ y :: r)%list = None.
Proof.
  intro H. induction a as [|z a IH]; simpl.
  - now rewrite H.
  - now rewrite String.eqb_refl.
Qed.

(** When the store already holds a directory for the component (with no
    sparse-checkout file in it, so that the checkout is not skipped), the
    move does not put the metadata in that entry but inside it, under the
    name [.git]; the pointer left in the component still reads the path of
    the entry, and the sparse file is still copied to the sparse-checkout
    place of the entry. *)
Theorem relocate_into_existing_entry
    (name p sf topgit : string) (wa wb : World) :
  let entry := OsPath.join topgit name in
  let gitsparse := OsPath.join (OsPath.join entry "info") "sparse-checkout" in
  let K_git := OsPath.resolve (cwd wa) (OsPath.join p ".git") in
  let K_top := OsPath.resolve (cwd wa) topgit in
  let K_store := OsPath.resolve (cwd wa) entry in
  let K_slot := OsPath.resolve (cwd wa) gitsparse in
  let K_spec := OsPath.resolve (cwd wa) (OsPath.join p sf) in
  let pointer := "gitdir: " ++ OsPath.relpath (cwd wa) entry p in
  relocate_metadata name p (PStr sf) topgit gitsparse wa = Ok tt wb ->
  fs wa K_git = Some Dir ->
  fs wa K_store = Some Dir ->
  K_store <> K_git ->
  below K_top K_store = true ->
  isdir (fs wa) K_slot = false ->
  fs wb (K_store ++ [".git"])%list = Some Dir /\
  fs wb K_store = Some Dir /\
  fs wb K_git = Some (File pointer) /\
  (exists c, fs wb K_slot = Some (File c)) /\
  (exists made, (made = [] \/ made = [Makedirs K_top]) /\
     events wb = (events wa ++ made ++
                  [Moved K_git (K_store ++ [".git"]); Copied K_spec K_slot;
                   Wrote K_git pointer])%list).
Proof.
  intros entry gitsparse K_git K_top K_store K_slot K_spec pointer
    Hrun Hmeta Hentry Hne Hin Hnoslot.
  assert (Eslot : K_slot = (K_store ++ ["info"; "sparse-checkout"])%list).
  { subst K_slot gitsparse K_store.
    rewrite (OsPathFacts.resolve_join_plain _ _ _ OsPathFacts.plain_sparse_checkout).
    rewrite (OsPathFacts.resolve_join_plain _ _ _ OsPathFacts.plain_info).
    now rewrite <- app_assoc. }
  assert (Hslot_top : below K_slot K_top = false).
  { destruct (below K_slot K_top) eqn:E; [|reflexivity]. exfalso.
    assert (Hb : below K_slot K_store = true)
      by (now apply FileSysFacts.below_trans with K_top).
    rewrite Eslot, FileSysFacts.below_longer in Hb; [discriminate Hb | discriminate]. }
  unfold relocate_metadata in Hrun.
  step_in Hrun isd w0 H0. inversion H0. subst isd w0. clear H0.
  step_in Hrun u w1 H1. destruct u.
  assert (Hw1 : cwd w1 = cwd wa /\
                (exists made, (made = [] \/ made = [Makedirs K_top]) /\
                              events w1 = (events wa ++ made)%list) /\
                fs w1 K_git = Some Dir /\ fs w1 K_store = Some Dir /\
                isdir (fs w1) K_slot = false).
  { fold K_top in H1. destruct (isdir (fs wa) K_top); simpl in H1.
    - inversion H1. subst w1. split; [reflexivity|]. split.
      + exists []. split; [now left | now rewrite app_nil_r].
      + repeat split; assumption.
    - apply os_makedirs_ok in H1. cbv zeta in H1. fold K_top in H1.
      destruct H1 as [_ ->]. simpl. split; [reflexivity|]. split.
      + exists [Makedirs K_top]. split; [now right | reflexivity].
      + split; [now apply FileSysFacts.with_dirs_present|].
        split; [now apply FileSysFacts.with_dirs_present|].
        unfold isdir. now rewrite FileSysFacts.with_dirs_off_path. }
  destruct Hw1 as (Hcwd & (made & Hmade & Hev1) & Hgit1 & Hstore1 & Hslot1).
  (* the move, into the entry *)
  step_in Hrun u w2 H2. destruct u.
  assert (Hmove : below K_git (K_store ++ [".git"])%list = false /\
                  fs w1 (K_store ++ [".git"])%list = None /\
                  w2 = emit (Moved K_git (K_store ++ [".git"])%list)
                         (set_fs (renamed (with_dirs (fs w1) K_store) K_git
                                    (K_store ++ [".git"])%list) w1)).
  { unfold shutil_move in H2. cbv zeta in H2. rewrite Hcwd in H2.
    fold entry K_git K_store in H2.
    rewrite basename_of_git in H2.
    rewrite (OsPathFacts.resolve_join_plain _ _ _ OsPathFacts.plain_git) in H2.
    fold K_store in H2.
    assert (Hd : isdir (fs w1) K_store = true) by (unfold isdir; now rewrite Hstore1).
    rewrite !Hd in H2.
    rewrite (FileSysFacts.key_eqb_neq K_git K_store) in H2 by (now apply not_eq_sym).
    cbn [andb] in H2. rewrite Hgit1 in H2.
    unfold exists_ in H2.
    destruct (fs w1 (K_store ++ [".git"])%list) eqn:Ein; [discriminate H2|].
    destruct (below K_git (K_store ++ [".git"])%list); [discriminate H2|].
    destruct (blocked (fs w1) [] _); [discriminate H2|].
    rewrite FileSysFacts.parent_snoc in H2. inversion H2. now repeat split. }
  destruct Hmove as (Hbelow & Hfree & ->).
  assert (Hgit_store : below K_git K_store = false).
  { destruct (below K_git K_store) eqn:E; [|reflexivity]. exfalso.
    rewrite (FileSysFacts.below_trans K_git K_store (K_store ++ [".git"])%list E
               (FileSysFacts.below_app _ _)) in Hbelow. discriminate. }
  assert (Hinner_ne_git : (K_store ++ [".git"])%list <> K_git).
  { intro E. rewrite E, Hgit1 in Hfree. discriminate. }
  (* the copy *)
  step_in Hrun sf' w3 H3. inversion H3. subst sf' w3. clear H3.
  step_in Hrun u w4 H4. destruct u.
  assert (Hslot2 : isdir (renamed (with_dirs (fs w1) K_store) K_git
                            (K_store ++ [".git"])%list) K_slot = false).
  { unfold isdir, renamed. rewrite Eslot.
    rewrite (strip_sibling K_store ["sparse-checkout"] ".git" "info" eq_refl).
    destruct (below K_git (K_store ++ ["info"; "sparse-checkout"])%list);
      [reflexivity|].
    rewrite FileSysFacts.with_dirs_off_path
      by (apply FileSysFacts.below_longer; discriminate).
    rewrite <- Eslot. exact Hslot1. }
  apply shutil_copy_ok in H4; simpl; [| rewrite Hcwd; exact Hslot2].
  simpl in H4. rewrite Hcwd in H4. fold gitsparse K_slot K_spec in H4.
  destruct H4 as (c & Hc & ->).
  (* the pointer *)
  step_in Hrun rel w5 H5.
  unfold os_path_relpath in H5. simpl in H5. inversion H5. subst rel w5. clear H5.
  rewrite Hcwd in Hrun.
  apply write_file_ok in Hrun. simpl in Hrun. rewrite Hcwd in Hrun.
  fold K_git pointer in Hrun. destruct Hrun as [_ ->]. simpl.
  assert (Hinner_ne_slot : (K_store ++ [".git"])%list <> K_slot).
  { rewrite Eslot. intro E. apply app_inv_head in E. discriminate. }
  assert (Hstore_ne_slot : K_store <> K_slot).
  { rewrite Eslot. intro E. rewrite <- (app_nil_r K_store) in E at 1.
    apply app_inv_head in E. discriminate. }
  assert (Hslot_ne_git : K_slot <> K_git).
  { rewrite Eslot. unfold K_git.
    rewrite (OsPathFacts.resolve_join_plain _ _ _ OsPathFacts.plain_git).
    change (K_store ++ ["info"; "sparse-checkout"])%list
      with (K_store ++ ["info"] ++ ["sparse-checkout"])%list.
    rewrite app_assoc. apply last_differs. discriminate. }
  split.
  { rewrite !FileSysFacts.put_other by assumption.
    rewrite FileSysFacts.renamed_dst. now apply FileSysFacts.with_dirs_present. }
  split.
  { rewrite !FileSysFacts.put_other by assumption.
    unfold renamed.
    assert (Es : strip (K_store ++ [".git"])%list K_store = None).
    { pose proof (FileSysFacts.below_longer K_store [".git"]) as Hl.
      unfold below in Hl. destruct (strip _ K_store); [|reflexivity].
      now discriminate Hl. }
    rewrite Es, Hgit_store. now apply FileSysFacts.with_dirs_present. }
  split; [apply FileSysFacts.put_same|].
  split.
  { exists c. rewrite FileSysFacts.put_other by assumption.
    apply FileSysFacts.put_same. }
  exists made. split; [exact Hmade|].
  rewrite Hev1. rewrite <- !app_assoc. reflexivity.
Qed.

(** When the sparse-checkout file of a component is in the store and the
    directory of the component is not there, a sparse checkout makes the
    directory, with those above it, finds the file, logs that the
    component is already initialized and returns: the component is left
    an empty directory, and nothing is fetched or checked out. *)
Theorem sparse_checkout_after_removal
    (name p sf top out : string) (url tag : pyval) (w : World) :
  let here := cwd w in
  let topgit := OsPath.join (OsPath.join top ".git") "modules" in
  let gitsparse :=
    OsPath.join (OsPath.join (OsPath.join topgit name) "info") "sparse-checkout" in
  let K_dir := OsPath.resolve here p in
  let made := with_dirs (fs w) K_dir in
  fs w K_dir = None ->
  blocked (fs w) [] K_dir = false ->
  GitInterface_init here here made = (made, inr tt) ->
  GitInterface_git_operation here here rev_parse_args made = (made, inr out) ->
  rstrip out = top ->
  isfile (fs w) (OsPath.resolve here gitsparse) = true ->
  submodule_sparse_checkout name url (PStr p) (PStr sf) tag w =
    Ok tt (mkWorld made (cwd w)
             (events w ++ [Makedirs K_dir; NewGitInterface here;
                           GitOperation here rev_parse_args;
                           LogWarning (already_initialized name)])%list) /\
  made K_dir = Some Dir /\
  (forall x, made (K_dir ++ [x])%list = fs w (K_dir ++ [x])%list).
Proof.
  intros here topgit gitsparse K_dir made Hnone Hfree Hinit Hop Htop Hfile.
  split; [|split].
  - assert (Hfile' : isfile made (OsPath.resolve here gitsparse) = true).
    { unfold isfile in *. destruct (fs w (OsPath.resolve here gitsparse)) as [n|] eqn:E;
        [|discriminate].
      subst made. now rewrite (FileSysFacts.with_dirs_present _ _ _ _ E). }
    subst here topgit gitsparse made K_dir.
    unfold submodule_sparse_checkout, GitInterface, git_operation,
      lift_tool, os_makedirs.
    run_step. unfold isdir, exists_. rewrite Hnone. simpl.
    rewrite Hfree. simpl. rewrite ?Hnone. simpl. rewrite Hinit. simpl.
    rewrite Hop. simpl. rewrite Htop.
    rewrite Hfile'. unfold emit, set_fs. simpl. now rewrite <- !app_assoc.
  - now apply FileSysFacts.with_dirs_made.
  - intro x. apply FileSysFacts.with_dirs_off_path.
    apply FileSysFacts.below_longer. discriminate.
Qed.

(** A checkout fails before submodule update or any sparse step is asked
    of the tool when the manifest gives no path for the component (a type
    error; the full checkout has opened the repository by then), and a
    sparse checkout does so too when the path names a file (the directory
    cannot be made). *)
Theorem checkout_fails_early
    (install : GitModules -> string -> container -> M unit)
    (name root p : string) (url sparsefile tag : pyval) (c : string)
    (t1 : FS) (w : World) :
  submodule_sparse_checkout name url PNone sparsefile tag w = Raise TypeError w /\
  (fs w (OsPath.resolve (cwd w) p) = Some (File c) ->
   submodule_sparse_checkout name url (PStr p) sparsefile tag w
     = Raise FileExistsError w) /\
  (GitInterface_init (cwd w) root (fs w) = (t1, inr tt) ->
   submodule_checkout install root name PNone w =
     Raise TypeError (mkWorld t1 (cwd w) (events w ++ [NewGitInterface root])%list)).
Proof.
  split; [reflexivity|]. split.
  - intro H. unfold submodule_sparse_checkout, os_makedirs. run_step.
    unfold isdir, exists_. rewrite H. simpl. rewrite ?H. reflexivity.
  - intro H. unfold submodule_checkout, GitInterface, lift_tool. run_step.
    rewrite H. reflexivity.
Qed.

End SparseEdges.

(** ** The optional flag *)

Section OptionalFlag.

Context {ext : External}.

(** [--optional] changes what install does with the class [T:F] and with no
    other: a manifest in which no component has exactly that class is
    installed in the same way with the flag and without it. *)
Theorem optional_flag_changes_only_tested_optional
    (depth : nat) (gitmodules : GitModules) (root_dir : string) (w : World) :
  (forall name, In name (sections gitmodules) ->
     get gitmodules name "esmrequired" <> PStr "T:F") ->
  submodules_install depth gitmodules root_dir (Tuple ["T:T"; "T:F"; "I:T"]) w =
  submodules_install depth gitmodules root_dir (Tuple ["T:T"; "I:T"]) w.
Proof.
  intro H. destruct depth as [|depth]; [reflexivity|]. simpl.
  apply for_each_ext. intros name w' Hin. unfold install_of.
  assert (E : py_in (get gitmodules name "esmrequired") (Tuple ["T:T"; "T:F"; "I:T"]) w'
              = py_in (get gitmodules name "esmrequired") (Tuple ["T:T"; "I:T"]) w').
  { unfold py_in, ret. f_equal. specialize (H name Hin).
    destruct (get gitmodules name "esmrequired") as [|s]; [reflexivity|].
    simpl. destruct (s =? "T:F") eqn:Es; [|reflexivity].
    apply String.eqb_eq in Es. subst. now contradiction H. }
  unfold bind at 1 3. now rewrite E.
Qed.

End OptionalFlag.

(** * More concrete runs *)

(** Status of the two components of [pair_manifest]. *)
Lemma status_prints_one_line_each_witness :
  exists evs,
    events (world_of (@submodules_status (tool plain_tool) pair_manifest "/work" start))
      = (events start ++ evs)%list /\
    Forall2 (fun name line =>
               exists tag atag, git pair_manifest name "esmtag" = inr tag /\
                                line = status_line name tag atag)
            (sections pair_manifest) (printed evs).
Proof.
  apply (@status_prints_one_line_each (tool plain_tool) pair_manifest "/work" start).
  vm_compute. reflexivity.
Defined.

(** Install of [idle_manifest] without [--optional]. *)
Lemma install_of_unaccepted_manifest_witness :
  outcome (@submodules_install (tool plain_tool) 1 idle_manifest "/work"
             (Tuple ["T:T"; "I:T"]) start) =
  (None, [Print "Skipping optional component o"]).
Proof.
  rewrite (@install_of_unaccepted_manifest (tool plain_tool) 0 idle_manifest "/work"
             ["T:T"; "I:T"] start).
  - reflexivity.
  - simpl. intros name [<-|[<-|[<-|[]]]]; eexists; split; reflexivity.
Defined.

(** Update of [odd_manifest], of which nothing is checked out. *)
Lemma update_of_unchecked_manifest_witness :
  @submodules_update (tool plain_tool) odd_manifest "/work" start = Ok tt start.
Proof.
  apply (@update_of_unchecked_manifest (tool plain_tool) odd_manifest "/work" start).
  simpl. intros name [<-|[<-|[]]]; eexists; split; reflexivity.
Defined.

Ltac by_name name :=
  cbv [get git manifest pair_manifest pair_manifest_reclassed foo_manifest
       foo_manifest_retagged assoc];
  repeat match goal with
         | |- context [name =? ?s] => destruct (name =? s)
         end;
  reflexivity.

(** [pair_manifest] and the same with other classes and a sparse file. *)
Lemma status_and_update_ignore_classes_witness :
  @submodules_status (tool plain_tool) pair_manifest "/work" start =
  @submodules_status (tool plain_tool) pair_manifest_reclassed "/work" start /\
  @submodules_update (tool plain_tool) pair_manifest "/work" start =
  @submodules_update (tool plain_tool) pair_manifest_reclassed "/work" start.
Proof.
  apply (@status_and_update_ignore_classes (tool plain_tool) pair_manifest
           pair_manifest_reclassed "/work" start);
    [reflexivity | intro name; by_name name ..].
Defined.

(** [foo_manifest] and the same with another url and another tag. *)
Lemma install_reads_tag_for_sparse_only_witness :
  @submodules_install (tool plain_tool) 1 foo_manifest "/work"
    (Tuple ["T:T"; "I:T"]) start =
  @submodules_install (tool plain_tool) 1 foo_manifest_retagged "/work"
    (Tuple ["T:T"; "I:T"]) start.
Proof.
  apply (@install_reads_tag_for_sparse_only (tool plain_tool) 1 foo_manifest
           foo_manifest_retagged "/work" (Tuple ["T:T"; "I:T"]) start);
    [reflexivity | intro name; by_name name .. |].
  intro name. cbv [get manifest foo_manifest assoc].
  destruct (name =? "foo"); discriminate.
Defined.

(** Install of [sparse_manifest] from two root directories. *)
Lemma sparse_install_ignores_root_dir_witness :
  @submodules_install (tool plain_tool) 1 sparse_manifest "/work"
    (Tuple ["T:T"; "I:T"]) start =
  @submodules_install (tool plain_tool) 6 sparse_manifest "/elsewhere"
    (Tuple ["T:T"; "I:T"]) start.
Proof.
  apply (@sparse_install_ignores_root_dir (tool plain_tool) 0 5 sparse_manifest
           "/work" "/elsewhere" (Tuple ["T:T"; "I:T"]) start).
  simpl. intros name [<-|[]]. reflexivity.
Defined.

(** The main function under [--status --update --optional -v]. *)
Lemma main_func_dispatch_witness :
  outcome (@_main_func (tool reading) 1 status_options start) =
  (None,
   [Print "action is status"; NewGitModules "/work";
    NewGitInterface "/work/a"; GitOperation "/work/a" describe_args;
    Print "Submodule a at tag v1.0";
    NewGitInterface "/work/b"; GitOperation "/work/b" describe_args;
    Print "Submodule b v1.0 is out of sync with .gitmodules v2.0"]).
Proof.
  pose proof (proj1 (@main_func_dispatch (tool reading) 1 status_options start eq_refl)
                pair_manifest _ eq_refl) as H.
  rewrite H. vm_compute. reflexivity.
Defined.

(** The main function under [--version] and every other flag. *)
Lemma version_ends_the_run_witness :
  outcome (@_main_func (tool plain_tool) 1 version_options start) =
  (Some (SystemExit 0), [Print "1.0"]).
Proof.
  rewrite (@version_ends_the_run (tool plain_tool) 1 version_options start eq_refl).
  reflexivity.
Defined.

(** The first sparse checkout of [foo]. *)
Lemma sparse_checkout_protocol_witness :
  first_run = Ok tt (world_of first_run) /\
  exists made1 : list event,
    made1 = [] \/ made1 = [Makedirs ["work"; "ext"; "foo"]].
Proof.
  split; [vm_compute; reflexivity|].
  destruct (@sparse_checkout_protocol (tool plain_tool) "foo" "ext/foo" "sparse_list"
              (PStr "https://x/foo.git") (PStr "v1.0") start (world_of first_run))
    as (out & made1 & Hmade1 & _).
  - vm_compute. reflexivity.
  - exists made1. exact Hmade1.
Defined.

(** The relocation of the metadata of [foo] when the store has its entry. *)
Lemma relocate_into_existing_entry_witness :
  fs (world_of (relocate_metadata "foo" "ext/foo" (PStr "sparse_list") store slot
                  opened_again))
     ["work"; ".git"; "modules"; "foo"; ".git"] = Some Dir /\
  fs (world_of (relocate_metadata "foo" "ext/foo" (PStr "sparse_list") store slot
                  opened_again))
     ["work"; "ext"; "foo"; ".git"] = Some (File "gitdir: ../../.git/modules/foo").
Proof.
  pose proof (@relocate_into_existing_entry "foo" "ext/foo" "sparse_list" store
                opened_again
                (world_of (relocate_metadata "foo" "ext/foo" (PStr "sparse_list")
                             store slot opened_again))) as H.
  cbv zeta in H.
  destruct H as (H1 & _ & H2 & _).
  - vm_compute. reflexivity.
  - vm_compute. reflexivity.
  - vm_compute. reflexivity.
  - vm_compute. discriminate.
  - vm_compute. reflexivity.
  - vm_compute. reflexivity.
  - split; [exact H1 | exact H2].
Defined.

(** A sparse checkout of [foo] when its directory is gone. *)
Lemma sparse_checkout_after_removal_witness :
  outcome (@submodule_sparse_checkout (tool plain_tool) "foo" (PStr "https://x/foo.git")
             (PStr "ext/foo") (PStr "sparse_list") (PStr "v1.0") removed) =
  (None,
   [Makedirs ["work"; "ext"; "foo"]; NewGitInterface "/work";
    GitOperation "/work" rev_parse_args;
    LogWarning "submodule foo is already initialized"]).
Proof.
  rewrite (proj1 (@sparse_checkout_after_removal (tool plain_tool) "foo" "ext/foo"
                    "sparse_list" "/work" ("/work" ++ nl) (PStr "https://x/foo.git")
                    (PStr "v1.0") removed
                    eq_refl eq_refl eq_refl eq_refl eq_refl eq_refl)).
  reflexivity.
Defined.

(** A sparse checkout at a path that names a file. *)
Lemma checkout_fails_early_witness :
  @submodule_sparse_checkout (tool plain_tool) "foo" (PStr "https://x/foo.git")
    (PStr "ext/foo/sparse_list") (PStr "sparse_list") (PStr "v1.0") start =
  Raise FileExistsError start.
Proof.
  apply (proj1 (proj2 (@checkout_fails_early (tool plain_tool) no_install "foo" "/work"
                         "ext/foo/sparse_list" (PStr "https://x/foo.git")
                         (PStr "sparse_list") (PStr "v1.0") "src/" work start))).
  reflexivity.
Defined.

(** [pair_manifest_reclassed], which has no component of class [T:F]. *)
Lemma optional_flag_changes_only_tested_optional_witness :
  @submodules_install (tool plain_tool) 1 pair_manifest_reclassed "/work"
    (Tuple ["T:T"; "T:F"; "I:T"]) start =
  @submodules_install (tool plain_tool) 1 pair_manifest_reclassed "/work"
    (Tuple ["T:T"; "I:T"]) start.
Proof.
  apply (@optional_flag_changes_only_tested_optional (tool plain_tool) 1
           pair_manifest_reclassed "/work" start).
  simpl. intros name [<-|[<-|[]]]; discriminate.
Defined.

(** The install of [foo] with its sparse file. *)
Lemma sparse_install_reads_no_manifest_witness :
  exists evs,
    events (world_of (@submodules_install (tool plain_tool) 1 sparse_manifest "/work"
                        (Tuple ["T:T"; "I:T"]) start)) = evs /\
    forallb no_full_checkout evs = true.
Proof.
  destruct (@sparse_install_reads_no_manifest (tool plain_tool) 1 sparse_manifest
              "/work" (Tuple ["T:T"; "I:T"]) start) as (evs & E & F).
  - simpl. intros name [<-|[]]. reflexivity.
  - exists evs. split; [exact E | exact F].
Defined.
